(** * FocusTask board store: a shallow embedding of [src/App.tsx]

    The component [TrelloBoard] keeps one state value, [sections], and every
    handler computes the next value of it.  Each handler is embedded as a
    function from the current value to the next one; a handler that does not
    call [setSections] returns its argument.

    Conventions of the embedding:
    - a JavaScript string is a [string]: a sequence of code units, here the
      code units U+0000 to U+00FF;
    - [Date.now()] is an input of the handlers that read the clock, an
      integer number of milliseconds (its decimal form is what
      [Number.prototype.toString] gives below 1e21);
    - [JSON.stringify] and [JSON.parse] are the ECMAScript algorithms, written
      out in [Module JSON] over these strings: a number is kept as its
      literal, a [\uXXXX] escape above U+00FF is outside the strings of the
      embedding, and the members of an object are kept in the order of the
      text;
    - [importData] stores whatever array it parsed, so the value it leaves in
      [sections] is a JSON value; a Board is the JSON value [board_json]
      gives. *)

From Stdlib Require Import List String Ascii Bool Arith ZArith Lia.
From Stdlib Require Import DecimalString DecimalZ.
Import ListNotations.

Local Open Scope string_scope.
Local Open Scope list_scope.

(** ** Data model (App.tsx, lines 4-20) *)

Record Task := mkTask {
  task_id : string;
  task_title : string;
  completed : bool
}.

Record Column := mkColumn {
  column_id : string;
  column_title : string;
  tasks : list Task
}.

Record Section := mkSection {
  section_id : string;
  section_title : string;
  columns : list Column
}.

Definition Board := list Section.

(** Object spread with one overridden field. *)
Definition with_completed (t : Task) (b : bool) : Task :=
  mkTask (task_id t) (task_title t) b.
Definition with_task_title (t : Task) (s : string) : Task :=
  mkTask (task_id t) s (completed t).
Definition with_column_title (c : Column) (s : string) : Column :=
  mkColumn (column_id c) s (tasks c).
Definition with_tasks (c : Column) (ts : list Task) : Column :=
  mkColumn (column_id c) (column_title c) ts.
Definition with_section_title (s : Section) (t : string) : Section :=
  mkSection (section_id s) t (columns s).
Definition with_columns (s : Section) (cs : list Column) : Section :=
  mkSection (section_id s) (section_title s) cs.

(** The seed value of [useLocalStorage] (lines 47-76). *)
Definition initialSections : Board :=
  [ mkSection "1" "Project Planning"
      [ mkColumn "c1" "To Do"
          [ mkTask "t1" "Sample task 1" false;
            mkTask "t3" "Completed sample task" true ];
        mkColumn "c2" "In Progress" [ mkTask "t2" "Sample task 2" false ];
        mkColumn "c3" "Done" [] ];
    mkSection "2" "Development"
      [ mkColumn "c4" "Backlog" [];
        mkColumn "c5" "In Development" [] ] ].

(** ** JavaScript primitives used by the handlers *)

(** [WhiteSpace] and [LineTerminator] code units below U+0100: TAB, LF, VT,
    FF, CR, SP and NBSP. *)
Definition is_white_space (c : ascii) : bool :=
  match nat_of_ascii c with
  | 9 | 10 | 11 | 12 | 13 | 32 | 160 => true
  | _ => false
  end.

Fixpoint trimStart (s : string) : string :=
  match s with
  | EmptyString => EmptyString
  | String c s' => if is_white_space c then trimStart s' else s
  end.

Fixpoint trimEnd (s : string) : string :=
  match s with
  | EmptyString => EmptyString
  | String c s' =>
      match trimEnd s' with
      | EmptyString => if is_white_space c then EmptyString
                       else String c EmptyString
      | r => String c r
      end
  end.

(** [String.prototype.trim]. *)
Definition trim (s : string) : string := trimEnd (trimStart s).

(** [ToBoolean] of a string: the empty string is the only falsy one. *)
Definition truthy (s : string) : bool :=
  match s with EmptyString => false | _ => true end.

(** [Number.prototype.toString] of an integer clock reading: its decimal
    digits, with a minus sign below zero. *)
Definition toString (n : Z) : string :=
  NilEmpty.string_of_int (Z.to_int n).

(** [arr.slice(0, -1)]: the end index is [length - 1], not below [0]. *)
Definition slice_0_neg1 {A} (l : list A) : list A :=
  firstn (List.length l - 1) l.

Definition newline : string := String "010" EmptyString.

(** [arr.join(sep)]. *)
Fixpoint join (sep : string) (l : list string) : string :=
  match l with
  | [] => EmptyString
  | [x] => x
  | x :: rest => x ++ sep ++ join sep rest
  end.

(** ** The handlers (App.tsx, lines 89-335) *)

(** [addSection]: the clock is read twice, for the section and for its
    column. *)
Definition addSection (now1 now2 : Z) (sections : Board) : Board :=
  let newSection :=
    mkSection (toString now1) "New Section"
      [ mkColumn ("col-" ++ toString now2) "New Column" [] ] in
  sections ++ [newSection].

Definition deleteSection (sectionId : string) (sections : Board) : Board :=
  filter (fun section => negb (section_id section =? sectionId)) sections.

Definition clearCompletedTasks (sectionId : string) (sections : Board)
  : Board :=
  map (fun section =>
         if section_id section =? sectionId then
           with_columns section
             (map (fun col =>
                     with_tasks col
                       (filter (fun task => negb (completed task))
                          (tasks col)))
                (columns section))
         else section)
      sections.

Definition editSectionTitle (sectionId newTitle : string) (sections : Board)
  : Board :=
  if truthy (trim newTitle) then
    map (fun section =>
           if section_id section =? sectionId
           then with_section_title section newTitle
           else section)
        sections
  else sections.

Definition addColumn (now : Z) (sectionId : string) (sections : Board)
  : Board :=
  let newColumn := mkColumn ("col-" ++ toString now) "New Column" [] in
  map (fun section =>
         if section_id section =? sectionId
         then with_columns section (columns section ++ [newColumn])
         else section)
      sections.

Definition removeColumn (sectionId : string) (sections : Board) : Board :=
  map (fun section =>
         if (section_id section =? sectionId)
            && Nat.ltb 1 (List.length (columns section))
         then with_columns section (slice_0_neg1 (columns section))
         else section)
      sections.

(** The shape shared by the handlers that address one column: map over the
    sections, and in a section with the given id over its columns. *)
Definition in_column (sectionId columnId : string) (f : Column -> Column)
    (sections : Board) : Board :=
  map (fun section =>
         if section_id section =? sectionId then
           with_columns section
             (map (fun col => if column_id col =? columnId then f col else col)
                (columns section))
         else section)
      sections.

Definition editColumnTitle (sectionId columnId newTitle : string)
    (sections : Board) : Board :=
  if truthy (trim newTitle) then
    in_column sectionId columnId
      (fun col => with_column_title col newTitle) sections
  else sections.

Definition addTask (now : Z) (sectionId columnId taskTitle : string)
    (sections : Board) : Board :=
  if truthy (trim taskTitle) then
    let newTask := mkTask ("task-" ++ toString now) taskTitle false in
    in_column sectionId columnId
      (fun col => with_tasks col (tasks col ++ [newTask])) sections
  else sections.

Definition deleteTask (sectionId columnId taskId : string) (sections : Board)
  : Board :=
  in_column sectionId columnId
    (fun col =>
       with_tasks col
         (filter (fun task => negb (task_id task =? taskId)) (tasks col)))
    sections.

Definition toggleTaskCompletion (sectionId columnId taskId : string)
    (sections : Board) : Board :=
  in_column sectionId columnId
    (fun col =>
       with_tasks col
         (map (fun task =>
                 if task_id task =? taskId
                 then with_completed task (negb (completed task))
                 else task)
            (tasks col)))
    sections.

Definition editTaskTitle (sectionId columnId taskId newTitle : string)
    (sections : Board) : Board :=
  if truthy (trim newTitle) then
    in_column sectionId columnId
      (fun col =>
         with_tasks col
           (map (fun task =>
                   if task_id task =? taskId
                   then with_task_title task newTitle
                   else task)
              (tasks col)))
      sections
  else sections.

(** The [draggedTask] state set by [handleDragStart]. *)
Record Dragged := mkDragged {
  dragged_task : Task;
  fromSection : string;
  fromColumn : string
}.

Definition handleDragStart (task : Task) (fromSection fromColumn : string)
  : option Dragged :=
  Some (mkDragged task fromSection fromColumn).

(** [handleDrop]: the pair of the next [sections] and the next
    [draggedTask]. *)
Definition handleDrop (draggedTask : option Dragged)
    (toSectionId toColumnId : string) (sections : Board)
  : Board * option Dragged :=
  match draggedTask with
  | Some d =>
      (* Remove task from source *)
      let updatedSections :=
        in_column (fromSection d) (fromColumn d)
          (fun col =>
             with_tasks col
               (filter
                  (fun task => negb (task_id task =? task_id (dragged_task d)))
                  (tasks col)))
          sections in
      (* Add task to target *)
      let finalSections :=
        in_column toSectionId toColumnId
          (fun col => with_tasks col (tasks col ++ [dragged_task d]))
          updatedSections in
      (finalSections, None)
  | None => (sections, draggedTask)
  end.

(** The spec's [moveTask]: a drop of a task picked up by [handleDragStart]. *)
Definition moveTask (task : Task)
    (fromSectionId fromColumnId toSectionId toColumnId : string)
    (sections : Board) : Board :=
  fst (handleDrop (handleDragStart task fromSectionId fromColumnId)
         toSectionId toColumnId sections).

(** [copySectionAsMarkdown]: the text handed to the clipboard.  The two
    [forEach] loops push onto [markdownLines]. *)
Definition markdownLine (column : Column) (task : Task) : string :=
  let checkbox := if completed task then "[x]" else "[ ]" in
  "- " ++ checkbox ++ " " ++ column_title column ++ ": " ++ task_title task.

Definition markdownLines (section : Section) : list string :=
  fold_left
    (fun lines column =>
       fold_left (fun lines task => lines ++ [markdownLine column task])
         (tasks column) lines)
    (columns section) [].

Definition copySectionAsMarkdown (section : Section) : string :=
  join newline (markdownLines section).

(** ** JSON text (ECMAScript [JSON.stringify] and [JSON.parse]) *)

Module JSON.

(** A JSON value.  A number keeps its literal; no Board holds one.  An object
    keeps its members in property order. *)
#[local] Unset Elimination Schemes.
Inductive value : Type :=
| Null
| Bool (b : bool)
| Number (literal : string)
| Str (s : string)
| Array (elements : list value)
| Object (members : list (string * value)).
#[local] Set Elimination Schemes.

Definition isArray (v : value) : bool :=
  match v with Array _ => true | _ => false end.

Definition dquote : ascii := "034"%char.
Definition backslash : ascii := "092"%char.

(** *** [JSON.stringify(value, null, 2)] *)

Definition hex_digit (n : nat) : ascii :=
  match n with
  | 0 => "0" | 1 => "1" | 2 => "2" | 3 => "3" | 4 => "4" | 5 => "5"
  | 6 => "6" | 7 => "7" | 8 => "8" | 9 => "9" | 10 => "a" | 11 => "b"
  | 12 => "c" | 13 => "d" | 14 => "e" | _ => "f"
  end%char.

(** One code unit of [QuoteJSONString]: the short escapes of its table, a
    [\u00XX] escape for the other code units below U+0020, the code unit itself
    otherwise. *)
Definition quote_char (c : ascii) : string :=
  let esc (e : ascii) := String backslash (String e EmptyString) in
  match nat_of_ascii c with
  | 8 => esc "b"%char
  | 9 => esc "t"%char
  | 10 => esc "n"%char
  | 12 => esc "f"%char
  | 13 => esc "r"%char
  | 34 => esc dquote
  | 92 => esc backslash
  | n =>
      if Nat.ltb n 32 then
        String backslash
          (String "u" (String "0" (String "0"
             (String (hex_digit (n / 16))
                (String (hex_digit (n mod 16)) EmptyString)))))
      else String c EmptyString
  end.

Fixpoint quote_chars (s : string) : string :=
  match s with
  | EmptyString => EmptyString
  | String c s' => quote_char c ++ quote_chars s'
  end.

Definition QuoteJSONString (s : string) : string :=
  String dquote (quote_chars s ++ String dquote EmptyString).

(** The gap of [space = 2]. *)
Definition gap : string := "  ".

(** [SerializeJSONProperty], with [SerializeJSONArray] and
    [SerializeJSONObject] for a non-empty gap: [indent] is the indentation of
    the enclosing line. *)
Fixpoint serialize (indent : string) (v : value) : string :=
  match v with
  | Null => "null"
  | Bool true => "true"
  | Bool false => "false"
  | Number literal => literal
  | Str s => QuoteJSONString s
  | Array [] => "[]"
  | Array elements =>
      let stepback := indent in
      let indent := (indent ++ gap)%string in
      let separator := ("," ++ newline ++ indent)%string in
      ("[" ++ newline ++ indent
         ++ join separator (map (serialize indent) elements)
         ++ newline ++ stepback ++ "]")%string
  | Object [] => "{}"
  | Object members =>
      let stepback := indent in
      let indent := (indent ++ gap)%string in
      let separator := ("," ++ newline ++ indent)%string in
      ("{" ++ newline ++ indent
         ++ join separator
              (map (fun m => QuoteJSONString (fst m) ++ ": "
                               ++ serialize indent (snd m))
                 members)
         ++ newline ++ stepback ++ "}")%string
  end.

Definition stringify (v : value) : string := serialize EmptyString v.

(** *** [JSON.parse(text)] *)

(** JSON white space: TAB, LF, CR, SP. *)
Definition is_ws (c : ascii) : bool :=
  match nat_of_ascii c with
  | 9 | 10 | 13 | 32 => true
  | _ => false
  end.

Fixpoint skip_ws (s : string) : string :=
  match s with
  | EmptyString => EmptyString
  | String c s' => if is_ws c then skip_ws s' else s
  end.

Definition hex_value (c : ascii) : option nat :=
  let n := nat_of_ascii c in
  if Nat.leb 48 n && Nat.leb n 57 then Some (n - 48)
  else if Nat.leb 65 n && Nat.leb n 70 then Some (n - 55)
  else if Nat.leb 97 n && Nat.leb n 102 then Some (n - 87)
  else None.

(** The code unit of [\uXXXX]; [None] outside U+0000..U+00FF and on a
    character that is no hexadecimal digit. *)
Definition unicode_escape (h1 h2 h3 h4 : ascii) : option ascii :=
  match hex_value h1, hex_value h2, hex_value h3, hex_value h4 with
  | Some 0, Some 0, Some a, Some b => Some (ascii_of_nat (16 * a + b))
  | _, _, _, _ => None
  end.

Definition cons_char (c : ascii) (r : option (string * string))
  : option (string * string) :=
  match r with
  | Some (s, rest) => Some (String c s, rest)
  | None => None
  end.

(** The characters of a string literal after its opening quote, up to and
    including the closing quote: the string denoted and the text that
    follows. *)
Fixpoint parse_chars (s : string) : option (string * string) :=
  match s with
  | EmptyString => None
  | String c rest =>
      if Ascii.eqb c dquote then Some (EmptyString, rest)
      else if Ascii.eqb c backslash then
        match rest with
        | String e rest' =>
            match nat_of_ascii e with
            | 34 => cons_char dquote (parse_chars rest')
            | 92 => cons_char backslash (parse_chars rest')
            | 47 => cons_char "/"%char (parse_chars rest')
            | 98 => cons_char "008"%char (parse_chars rest')
            | 102 => cons_char "012"%char (parse_chars rest')
            | 110 => cons_char "010"%char (parse_chars rest')
            | 114 => cons_char "013"%char (parse_chars rest')
            | 116 => cons_char "009"%char (parse_chars rest')
            | 117 =>
                match rest' with
                | String h1 (String h2 (String h3 (String h4 rest''))) =>
                    match unicode_escape h1 h2 h3 h4 with
                    | Some u => cons_char u (parse_chars rest'')
                    | None => None
                    end
                | _ => None
                end
            | _ => None
            end
        | EmptyString => None
        end
      else if Nat.ltb (nat_of_ascii c) 32 then None
      else cons_char c (parse_chars rest)
  end.

Definition is_digit (c : ascii) : bool :=
  Nat.leb 48 (nat_of_ascii c) && Nat.leb (nat_of_ascii c) 57.

Fixpoint span_digits (s : string) : string * string :=
  match s with
  | EmptyString => (EmptyString, EmptyString)
  | String c s' =>
      if is_digit c then
        let (d, r) := span_digits s' in (String c d, r)
      else (EmptyString, s)
  end.

(** One or more digits. *)
Definition lex_digits (s : string) : option (string * string) :=
  match span_digits s with
  | (EmptyString, _) => None
  | (d, r) => Some (d, r)
  end.

(** [0], or a digit other than [0] followed by digits. *)
Definition lex_int (s : string) : option (string * string) :=
  match s with
  | String c rest =>
      if Ascii.eqb c "0" then Some (String c EmptyString, rest)
      else if is_digit c then
        let (d, r) := span_digits rest in Some (String c d, r)
      else None
  | EmptyString => None
  end.

Definition lex_frac (s : string) : option (string * string) :=
  match s with
  | String "."%char rest =>
      match lex_digits rest with
      | Some (d, r) => Some (String "." d, r)
      | None => None
      end
  | _ => Some (EmptyString, s)
  end.

Definition lex_exp (s : string) : option (string * string) :=
  match s with
  | String c rest =>
      if Ascii.eqb c "e" || Ascii.eqb c "E" then
        match rest with
        | String sign rest' =>
            if Ascii.eqb sign "+" || Ascii.eqb sign "-" then
              match lex_digits rest' with
              | Some (d, r) => Some (String c (String sign d), r)
              | None => None
              end
            else
              match lex_digits rest with
              | Some (d, r) => Some (String c d, r)
              | None => None
              end
        | EmptyString => None
        end
      else Some (EmptyString, s)
  | EmptyString => Some (EmptyString, s)
  end.

(** A JSON number: its literal and the text that follows. *)
Definition lex_number (s : string) : option (string * string) :=
  let (sign, s1) :=
    match s with
    | String "-"%char rest => ("-", rest)
    | _ => (EmptyString, s)
    end in
  match lex_int s1 with
  | Some (i, s2) =>
      match lex_frac s2 with
      | Some (f, s3) =>
          match lex_exp s3 with
          | Some (e, s4) => Some ((sign ++ i ++ f ++ e)%string, s4)
          | None => None
          end
      | None => None
      end
  | None => None
  end.

(** [CreateDataProperty]: a key met again keeps its place and takes the new
    value. *)
Fixpoint set_member (k : string) (v : value) (ms : list (string * value))
  : list (string * value) :=
  match ms with
  | [] => [(k, v)]
  | (k', v') :: ms' =>
      if k' =? k then (k', v) :: ms' else (k', v') :: set_member k v ms'
  end.

(** The literal [word] expected at the head of [s]. *)
Fixpoint expect (word s : string) : option string :=
  match word with
  | EmptyString => Some s
  | String c word' =>
      match s with
      | String c' s' => if Ascii.eqb c c' then expect word' s' else None
      | EmptyString => None
      end
  end.

(** Recursive descent over the JSON grammar; [fuel] bounds the nesting of
    calls, and [parse] gives it the length of the text. *)
Fixpoint parse_value (fuel : nat) (s : string) : option (value * string) :=
  match fuel with
  | O => None
  | S fuel =>
      match skip_ws s with
      | EmptyString => None
      | String c rest =>
          if Ascii.eqb c "n" then
            match expect "ull" rest with
            | Some r => Some (Null, r)
            | None => None
            end
          else if Ascii.eqb c "t" then
            match expect "rue" rest with
            | Some r => Some (Bool true, r)
            | None => None
            end
          else if Ascii.eqb c "f" then
            match expect "alse" rest with
            | Some r => Some (Bool false, r)
            | None => None
            end
          else if Ascii.eqb c dquote then
            match parse_chars rest with
            | Some (str, r) => Some (Str str, r)
            | None => None
            end
          else if Ascii.eqb c "[" then
            match skip_ws rest with
            | EmptyString => None
            | String c' r =>
                if Ascii.eqb c' "]" then Some (Array [], r)
                else
                  match parse_elements fuel rest with
                  | Some (l, r') => Some (Array l, r')
                  | None => None
                  end
            end
          else if Ascii.eqb c "{" then
            match skip_ws rest with
            | EmptyString => None
            | String c' r =>
                if Ascii.eqb c' "}" then Some (Object [], r)
                else
                  match parse_members fuel rest [] with
                  | Some (ms, r') => Some (Object ms, r')
                  | None => None
                  end
            end
          else
            match lex_number (String c rest) with
            | Some (literal, r) => Some (Number literal, r)
            | None => None
            end
      end
  end

with parse_elements (fuel : nat) (s : string)
  : option (list value * string) :=
  match fuel with
  | O => None
  | S fuel =>
      match parse_value fuel s with
      | Some (v, rest) =>
          match skip_ws rest with
          | EmptyString => None
          | String c rest' =>
              if Ascii.eqb c "," then
                match parse_elements fuel rest' with
                | Some (l, r) => Some (v :: l, r)
                | None => None
                end
              else if Ascii.eqb c "]" then Some ([v], rest')
              else None
          end
      | None => None
      end
  end

with parse_members (fuel : nat) (s : string) (acc : list (string * value))
  : option (list (string * value) * string) :=
  match fuel with
  | O => None
  | S fuel =>
      match skip_ws s with
      | EmptyString => None
      | String c rest =>
          if Ascii.eqb c dquote then
            match parse_chars rest with
            | Some (k, rest1) =>
                match skip_ws rest1 with
                | EmptyString => None
                | String c1 rest2 =>
                    if Ascii.eqb c1 ":" then
                      match parse_value fuel rest2 with
                      | Some (v, rest3) =>
                          match skip_ws rest3 with
                          | EmptyString => None
                          | String c3 rest4 =>
                              if Ascii.eqb c3 "," then
                                parse_members fuel rest4 (set_member k v acc)
                              else if Ascii.eqb c3 "}" then
                                Some (set_member k v acc, rest4)
                              else None
                          end
                      | None => None
                      end
                    else None
                end
            | None => None
            end
          else None
      end
  end.

(** [JSON.parse]: one value, white space around it, nothing else; [None] is
    the [SyntaxError]. *)
Definition parse (text : string) : option value :=
  match parse_value (S (String.length text)) text with
  | Some (v, rest) =>
      match skip_ws rest with
      | EmptyString => Some v
      | _ => None
      end
  | None => None
  end.

End JSON.

(** ** Export and import (App.tsx, lines 337-372) *)

(** The object a Task, a Column or a Section is at run time: its properties
    in the order the object literals of the handlers list them. *)
Definition task_json (t : Task) : JSON.value :=
  JSON.Object
    [ ("id", JSON.Str (task_id t));
      ("title", JSON.Str (task_title t));
      ("completed", JSON.Bool (completed t)) ].

Definition column_json (c : Column) : JSON.value :=
  JSON.Object
    [ ("id", JSON.Str (column_id c));
      ("title", JSON.Str (column_title c));
      ("tasks", JSON.Array (map task_json (tasks c))) ].

Definition section_json (s : Section) : JSON.value :=
  JSON.Object
    [ ("id", JSON.Str (section_id s));
      ("title", JSON.Str (section_title s));
      ("columns", JSON.Array (map column_json (columns s))) ].

Definition board_json (b : Board) : JSON.value :=
  JSON.Array (map section_json b).

(** [exportData]: the text of the downloaded file, [dataStr].  The argument
    is the value [sections] holds. *)
Definition exportData (sections : JSON.value) : string :=
  JSON.stringify sections.

Definition invalid_format_message : string :=
  "Invalid JSON format. Please select a valid FocusTask export file.".
Definition read_error_message : string :=
  "Error reading file. Please select a valid JSON file.".

(** [importData] with the [onload] callback of its reader: [file] is the text
    of the selected file, if one was selected.  The result is the next value
    of [sections] and the message of [alert], if it was called.
    [setSections(importedData)] stores the parsed array as it is.

    [JSON_parse] stands for the platform's [JSON.parse] ([None] when it
    throws) and [isArray] for [Array.isArray], over whatever the values of
    the platform are. *)
Definition importDataWith {V : Type}
    (JSON_parse : string -> option V) (isArray : V -> bool)
    (file : option string) (sections : V) : V * option string :=
  match file with
  | None => (sections, None)
  | Some text =>
      match JSON_parse text with
      | Some importedData =>
          if isArray importedData then (importedData, None)
          else (sections, Some invalid_format_message)
      | None => (sections, Some read_error_message)
      end
  end.

(** [importData] over the JSON text of [Module JSON]. *)
Definition importData (file : option string) (sections : JSON.value)
  : JSON.value * option string :=
  importDataWith JSON.parse JSON.isArray file sections.

(** ** Observations on a Board *)

Definition section_ids (b : Board) : list string := map section_id b.

Definition all_columns (b : Board) : list Column := flat_map columns b.

Definition column_ids (b : Board) : list string :=
  map column_id (all_columns b).

Definition all_tasks (b : Board) : list Task :=
  flat_map tasks (all_columns b).

Definition task_ids (b : Board) : list string := map task_id (all_tasks b).

Definition total_tasks (b : Board) : nat := List.length (all_tasks b).

(** The ids of each kind are pairwise distinct over the whole Board. *)
Definition unique_ids (b : Board) : Prop :=
  NoDup (section_ids b) /\ NoDup (column_ids b) /\ NoDup (task_ids b).

Definition has_section (sectionId : string) (b : Board) : bool :=
  existsb (fun s => section_id s =? sectionId) b.

Definition has_column (columnId : string) (b : Board) : bool :=
  existsb (fun c => column_id c =? columnId) (all_columns b).

Definition has_task (taskId : string) (b : Board) : bool :=
  existsb (fun t => task_id t =? taskId) (all_tasks b).

Definition holds_task (taskId : string) (c : Column) : bool :=
  existsb (fun t => task_id t =? taskId) (tasks c).

(** The number of Columns of the Board that hold a Task with the given id. *)
Definition columns_holding (taskId : string) (b : Board) : nat :=
  List.length (filter (holds_task taskId) (all_columns b)).

(** The number of Tasks of the Board with the given id. *)
Definition occurrences (taskId : string) (b : Board) : nat :=
  List.length (filter (fun t => task_id t =? taskId) (all_tasks b)).

(** The Column at position [j] of the Section at position [i], and the Task
    at position [k] of it. *)
Definition column_at (b : Board) (i j : nat) : option Column :=
  match nth_error b i with
  | Some s => nth_error (columns s) j
  | None => None
  end.

Definition task_at (b : Board) (i j k : nat) : option Task :=
  match column_at b i j with
  | Some c => nth_error (tasks c) k
  | None => None
  end.

(** A string of white space only, the empty string included. *)
Fixpoint whitespace_only (s : string) : bool :=
  match s with
  | EmptyString => true
  | String c s' => is_white_space c && whitespace_only s'
  end.

(** ** Sequences of creations *)

(** A creation, with the clock readings it takes. *)
Inductive Creation : Type :=
| AddSection (now1 now2 : Z)
| AddColumn (now : Z) (sectionId : string)
| AddTask (now : Z) (sectionId columnId taskTitle : string).

Definition create (b : Board) (op : Creation) : Board :=
  match op with
  | AddSection now1 now2 => addSection now1 now2 b
  | AddColumn now sectionId => addColumn now sectionId b
  | AddTask now sectionId columnId taskTitle =>
      addTask now sectionId columnId taskTitle b
  end.

Definition create_all (ops : list Creation) (b : Board) : Board :=
  fold_left create ops b.

(** The ids a creation makes from its clock readings are not in use on the
    Board it is applied to. *)
Definition fresh (op : Creation) (b : Board) : Prop :=
  match op with
  | AddSection now1 now2 =>
      ~ In (toString now1) (section_ids b)
      /\ ~ In ("col-" ++ toString now2)%string (column_ids b)
  | AddColumn now _ => ~ In ("col-" ++ toString now)%string (column_ids b)
  | AddTask now _ _ _ => ~ In ("task-" ++ toString now)%string (task_ids b)
  end.

Fixpoint all_fresh (ops : list Creation) (b : Board) : Prop :=
  match ops with
  | [] => True
  | op :: ops' => fresh op b /\ all_fresh ops' (create b op)
  end.

(** ** Well-formed JSON values and the fuel their text needs *)

Module JSONFacts.
Import JSON.

(** No number inside, and the keys of every object pairwise distinct. *)
Fixpoint wf (v : value) : Prop :=
  match v with
  | Number _ => False
  | Array l => fold_right (fun x P => wf x /\ P) True l
  | Object ms =>
      NoDup (map fst ms) /\ fold_right (fun m P => wf (snd m) /\ P) True ms
  | _ => True
  end.

(** The calls of [parse_value], [parse_elements] and [parse_members] the
    text of a value takes. *)
Fixpoint weight (v : value) : nat :=
  match v with
  | Array l => S (fold_right (fun x n => S (weight x + n)) 0 l)
  | Object ms => S (fold_right (fun m n => S (weight (snd m) + n)) 0 ms)
  | _ => 1
  end.

(** White space only. *)
Fixpoint blank (s : string) : bool :=
  match s with
  | EmptyString => true
  | String c s' => is_ws c && blank s'
  end.

(** The calls the elements of an array and the members of an object
    take. *)
Definition elements_weight (l : list value) : nat :=
  fold_right (fun x n => S (weight x + n)) 0 l.

Definition members_weight (ms : list (string * value)) : nat :=
  fold_right (fun m n => S (weight (snd m) + n)) 0 ms.

(** The text of [v], at any indentation, after any white space and before
    any text, is parsed as [v], given fuel for it. *)
Definition reads_back (v : value) : Prop :=
  wf v ->
  forall fuel ind w rest,
    weight v <= fuel -> blank w = true -> blank ind = true ->
    parse_value fuel (w ++ serialize ind v ++ rest) = Some (v, rest).

End JSONFacts.

(** ** What a drop addresses *)

(** The Columns a handler addresses with a section id and a column id: the
    Columns with the column id in the Sections with the section id. *)
Definition selected (sectionId columnId : string) (b : Board) : list Column :=
  filter (fun c => column_id c =? columnId)
    (flat_map columns (filter (fun s => section_id s =? sectionId) b)).

(** The two steps of [handleDrop] as functions on a Column. *)
Definition without_task (taskId : string) (col : Column) : Column :=
  with_tasks col
    (filter (fun task => negb (task_id task =? taskId)) (tasks col)).

Definition with_appended (task : Task) (col : Column) : Column :=
  with_tasks col (tasks col ++ [task]).

(** The source of a drop matches nothing. *)
Definition unknown_source (task : Task) (fromSectionId fromColumnId : string)
    (b : Board) : Prop :=
  has_section fromSectionId b = false
  \/ has_column fromColumnId b = false
  \/ has_task (task_id task) b = false.

(** Pairwise distinct strings, as a test. *)
Fixpoint distinct (l : list string) : bool :=
  match l with
  | [] => true
  | x :: l' => negb (existsb (String.eqb x) l') && distinct l'
  end.

(** ** The rest of the component *)

(** The [disabled] attribute of the Remove Column button (line 497). *)
Definition removeColumnDisabled (section : Section) : bool :=
  Nat.leb (List.length (columns section)) 1.

(** A drag gesture as the view wires it (lines 562-568 and 528-529): the
    Task rendered at position [k] of the Column at position [j] of the
    Section at position [i] is picked up with the ids of that Section and
    that Column, and dropped on the Column addressed by the two ids.  When
    nothing is rendered at the position there is no gesture. *)
Definition dragAndDrop (i j k : nat) (toSectionId toColumnId : string)
    (sections : Board) : Board :=
  match nth_error sections i with
  | Some section =>
      match nth_error (columns section) j with
      | Some column =>
          match nth_error (tasks column) k with
          | Some task =>
              fst (handleDrop
                     (handleDragStart task (section_id section)
                        (column_id column))
                     toSectionId toColumnId sections)
          | None => sections
          end
      | None => sections
      end
  | None => sections
  end.

(** What a user can do to the Board, one handler each. *)
Inductive Action : Type :=
| DoAddSection (now1 now2 : Z)
| DoDeleteSection (sectionId : string)
| DoClearCompletedTasks (sectionId : string)
| DoEditSectionTitle (sectionId newTitle : string)
| DoAddColumn (now : Z) (sectionId : string)
| DoRemoveColumn (sectionId : string)
| DoEditColumnTitle (sectionId columnId newTitle : string)
| DoAddTask (now : Z) (sectionId columnId taskTitle : string)
| DoDeleteTask (sectionId columnId taskId : string)
| DoToggleTaskCompletion (sectionId columnId taskId : string)
| DoEditTaskTitle (sectionId columnId taskId newTitle : string)
| DoDragAndDrop (i j k : nat) (toSectionId toColumnId : string).

Definition act (b : Board) (a : Action) : Board :=
  match a with
  | DoAddSection now1 now2 => addSection now1 now2 b
  | DoDeleteSection sectionId => deleteSection sectionId b
  | DoClearCompletedTasks sectionId => clearCompletedTasks sectionId b
  | DoEditSectionTitle sectionId newTitle =>
      editSectionTitle sectionId newTitle b
  | DoAddColumn now sectionId => addColumn now sectionId b
  | DoRemoveColumn sectionId => removeColumn sectionId b
  | DoEditColumnTitle sectionId columnId newTitle =>
      editColumnTitle sectionId columnId newTitle b
  | DoAddTask now sectionId columnId taskTitle =>
      addTask now sectionId columnId taskTitle b
  | DoDeleteTask sectionId columnId taskId =>
      deleteTask sectionId columnId taskId b
  | DoToggleTaskCompletion sectionId columnId taskId =>
      toggleTaskCompletion sectionId columnId taskId b
  | DoEditTaskTitle sectionId columnId taskId newTitle =>
      editTaskTitle sectionId columnId taskId newTitle b
  | DoDragAndDrop i j k toSectionId toColumnId =>
      dragAndDrop i j k toSectionId toColumnId b
  end.

Definition run (actions : list Action) (b : Board) : Board :=
  fold_left act actions b.

(** Every Section has at least one Column. *)
Definition min_one_column (b : Board) : bool :=
  forallb (fun s => Nat.leb 1 (List.length (columns s))) b.

(** A title that passes the guard of the handlers. *)
Definition nonblank (title : string) : bool := truthy (trim title).

(** No Section, Column or Task has a blank title. *)
Definition column_titled (c : Column) : bool :=
  nonblank (column_title c)
  && forallb (fun t => nonblank (task_title t)) (tasks c).

Definition section_titled (s : Section) : bool :=
  nonblank (section_title s) && forallb column_titled (columns s).

Definition no_blank_titles (b : Board) : bool := forallb section_titled b.

(** The ids an action makes from the clock are not in use on the Board. *)
Definition fresh_action (a : Action) (b : Board) : Prop :=
  match a with
  | DoAddSection now1 now2 => fresh (AddSection now1 now2) b
  | DoAddColumn now sectionId => fresh (AddColumn now sectionId) b
  | DoAddTask now sectionId columnId taskTitle =>
      fresh (AddTask now sectionId columnId taskTitle) b
  | _ => True
  end.

Fixpoint all_fresh_actions (actions : list Action) (b : Board) : Prop :=
  match actions with
  | [] => True
  | a :: actions' => fresh_action a b /\ all_fresh_actions actions' (act b a)
  end.




(** The name of the exported file (line 343): [isoString] is what
    [new Date().toISOString()] gives, and [split('T')[0]] keeps what comes
    before its first [T]. *)
Fixpoint before_first_T (s : string) : string :=
  match s with
  | EmptyString => EmptyString
  | String c s' =>
      if Ascii.eqb c "T" then EmptyString else String c (before_first_T s')
  end.

Definition exportFileName (isoString : string) : string :=
  "focustask-export-" ++ before_first_T isoString ++ ".json".

(** ** The storage slot ([useLocalStorage], lines 22-44) *)

(** [JSON.stringify(value)] with no gap: [SerializeJSONArray] and
    [SerializeJSONObject] put nothing but commas between the elements and a
    colon after a key. *)
Module JSONCompact.
Import JSON.

Fixpoint serialize (v : value) : string :=
  match v with
  | Null => "null"
  | Bool true => "true"
  | Bool false => "false"
  | Number literal => literal
  | Str s => QuoteJSONString s
  | Array [] => "[]"
  | Array elements =>
      ("[" ++ join "," (map serialize elements) ++ "]")%string
  | Object [] => "{}"
  | Object members =>
      ("{" ++ join ","
                (map (fun m => QuoteJSONString (fst m) ++ ":"
                                 ++ serialize (snd m))
                   members)
           ++ "}")%string
  end.

Definition stringify (v : value) : string := serialize v.

(** The text of [v], after any white space and before any text, is parsed
    as [v], given fuel for it. *)
Definition reads_back (v : value) : Prop :=
  JSONFacts.wf v ->
  forall fuel w rest,
    JSONFacts.weight v <= fuel -> JSONFacts.blank w = true ->
    parse_value fuel (w ++ serialize v ++ rest) = Some (v, rest).

End JSONCompact.

(** What [window.localStorage.getItem(key)] does: it throws, it gives
    [null], or it gives the text of the slot. *)
Inductive GetItem : Type :=
| GetItemThrows
| GetItemNull
| GetItemText (item : string).

(** The initial state of [useLocalStorage]: the parsed text of the slot; the
    initial value when there is no text, when the text is empty, and when
    reading or parsing throws.  [JSON_parse] stands for the platform's
    [JSON.parse], as in [importDataWith]. *)
Definition initialStoredValueWith {V : Type}
    (JSON_parse : string -> option V) (read : GetItem) (initialValue : V)
  : V :=
  match read with
  | GetItemThrows => initialValue
  | GetItemNull => initialValue
  | GetItemText item =>
      if truthy item then
        match JSON_parse item with
        | Some v => v
        | None => initialValue
        end
      else initialValue
  end.

(** The initial state over the JSON text of [Module JSON]. *)
Definition initialStoredValue (read : GetItem) (initialValue : JSON.value)
  : JSON.value :=
  initialStoredValueWith JSON.parse read initialValue.

(** [setValue] with a value: the next state and the next content of the
    slot.  The state is set before the slot is written, so a write that
    throws ([setItemThrows]) leaves the slot as it was and the state set. *)
Definition setValue (value : JSON.value) (setItemThrows : bool)
    (slot : option string) : JSON.value * option string :=
  (value,
   if setItemThrows then slot else Some (JSONCompact.stringify value)).

(** What [getItem] gives for a slot, when it does not throw. *)
Definition getItem (slot : option string) : GetItem :=
  match slot with
  | Some item => GetItemText item
  | None => GetItemNull
  end.

(** The Sections and Columns of a Board without their Tasks: ids and
    titles, in order. *)
Definition skeleton (b : Board)
  : list (string * string * list (string * string)) :=
  map (fun s =>
         (section_id s, section_title s,
          map (fun c => (column_id c, column_title c)) (columns s)))
    b.

(** The character occurs in the string. *)
Fixpoint has_char (a : ascii) (s : string) : bool :=
  match s with
  | EmptyString => false
  | String c s' => Ascii.eqb c a || has_char a s'
  end.

(** * Properties *)

(** ** Lists and strings *)

Lemma nth_error_map_some {A B} (f : A -> B) (l : list A) (i : nat) (x : A) :
  nth_error l i = Some x -> nth_error (map f l) i = Some (f x).
Proof.
  intro H. rewrite nth_error_map, H. reflexivity.
Qed.

Lemma map_id_ext {A} (f : A -> A) (l : list A) :
  (forall x, In x l -> f x = x) -> map f l = l.
Proof.
  induction l as [|a l IH]; simpl; intro H.
  - reflexivity.
  - rewrite H by auto. rewrite IH; auto.
Qed.

Lemma filter_all {A} (p : A -> bool) (l : list A) :
  (forall x, In x l -> p x = true) -> filter p l = l.
Proof.
  induction l as [|a l IH]; simpl; intro H.
  - reflexivity.
  - rewrite H by auto. rewrite IH; auto.
Qed.

Lemma existsb_false {A} (p : A -> bool) (l : list A) :
  existsb p l = false -> forall x, In x l -> p x = false.
Proof.
  intros H x Hx. destruct (p x) eqn:E; [|reflexivity].
  assert (existsb p l = true) by (apply existsb_exists; eauto).
  congruence.
Qed.

Lemma slice_0_neg1_app {A} (l : list A) (x : A) :
  slice_0_neg1 (l ++ [x]) = l.
Proof.
  unfold slice_0_neg1. rewrite length_app. simpl.
  replace (List.length l + 1 - 1) with (List.length l + 0) by lia.
  rewrite firstn_app_2. simpl. apply app_nil_r.
Qed.

Lemma with_columns_same (s : Section) : with_columns s (columns s) = s.
Proof. destruct s; reflexivity. Qed.

Lemma with_tasks_same (c : Column) : with_tasks c (tasks c) = c.
Proof. destruct c; reflexivity. Qed.

(** ** [removeColumn] *)

(** C3: [removeColumn] leaves a Section with exactly one Column as it is, and
    takes exactly the last Column off a Section with more than one; a Section
    with another id is left as it is. *)
Theorem removeColumn_keeps_one_removes_last
    (b : Board) (sectionId : string) (i : nat) (s : Section)
    (Hs : nth_error b i = Some s) :
  (section_id s = sectionId -> List.length (columns s) = 1 ->
   nth_error (removeColumn sectionId b) i = Some s)
  /\ (section_id s = sectionId -> 1 < List.length (columns s) ->
      exists cs last,
        columns s = cs ++ [last]
        /\ nth_error (removeColumn sectionId b) i = Some (with_columns s cs))
  /\ (section_id s <> sectionId ->
      nth_error (removeColumn sectionId b) i = Some s)
  /\ List.length (removeColumn sectionId b) = List.length b.
Proof.
  unfold removeColumn.
  repeat split.
  - intros Hid Hlen.
    rewrite (nth_error_map_some _ _ _ _ Hs).
    rewrite Hlen. simpl. rewrite andb_false_r. reflexivity.
  - intros Hid Hlen.
    destruct (exists_last (l := columns s)) as [cs [last Hcs]].
    { intro E. rewrite E in Hlen. simpl in Hlen. lia. }
    exists cs, last. split; [exact Hcs|].
    rewrite (nth_error_map_some _ _ _ _ Hs).
    apply String.eqb_eq in Hid. rewrite Hid.
    apply Nat.ltb_lt in Hlen. rewrite Hlen. simpl.
    rewrite Hcs at 1. rewrite slice_0_neg1_app. reflexivity.
  - intros Hid.
    rewrite (nth_error_map_some _ _ _ _ Hs).
    apply String.eqb_neq in Hid. rewrite Hid. reflexivity.
  - apply length_map.
Qed.

Lemma removeColumn_keeps_one_removes_last_witness :
  nth_error (removeColumn "2" initialSections) 1
  = Some (mkSection "2" "Development" [ mkColumn "c4" "Backlog" [] ]).
Proof.
  destruct (removeColumn_keeps_one_removes_last initialSections "2" 1
              (mkSection "2" "Development"
                 [ mkColumn "c4" "Backlog" [];
                   mkColumn "c5" "In Development" [] ]) eq_refl)
    as [_ [H _]].
  destruct (H eq_refl) as [cs [last [Hc Hn]]]; [simpl; lia|].
  rewrite Hn. simpl in Hc.
  destruct cs as [|c1 [|c2 cs]]; simpl in Hc.
  - discriminate.
  - injection Hc as <- _. reflexivity.
  - injection Hc as _ Hc. destruct cs; discriminate.
Defined.

(** ** Blank titles *)

Lemma trimEnd_empty_iff (s : string) :
  trimEnd s = EmptyString <-> whitespace_only s = true.
Proof.
  induction s as [|c s IH]; simpl.
  - tauto.
  - destruct (trimEnd s) eqn:E.
    + destruct (is_white_space c); simpl.
      * split; intros _; [apply IH|]; reflexivity.
      * split; discriminate.
    + split; [discriminate|].
      intro H. apply andb_true_iff in H. destruct H as [_ H].
      apply IH in H. discriminate.
Qed.

Lemma whitespace_only_trimStart (s : string) :
  whitespace_only (trimStart s) = whitespace_only s.
Proof.
  induction s as [|c s IH]; simpl.
  - reflexivity.
  - destruct (is_white_space c) eqn:E; simpl.
    + exact IH.
    + rewrite E. reflexivity.
Qed.

(** The trimmed form is empty exactly for the empty string and the strings
    of white space only. *)
Lemma trim_empty_iff (s : string) :
  trim s = EmptyString <-> whitespace_only s = true.
Proof.
  unfold trim. rewrite trimEnd_empty_iff, whitespace_only_trimStart. tauto.
Qed.

Lemma truthy_trim (s : string) :
  trim s <> EmptyString -> truthy (trim s) = true.
Proof.
  destruct (trim s); [congruence|reflexivity].
Qed.

(** C7: a rename of a Section, a Column or a Task with a title whose trimmed
    form is empty returns the Board as it is. *)
Theorem rename_blank_title_unchanged
    (b : Board) (sectionId columnId taskId title : string)
    (Hblank : trim title = EmptyString) :
  editSectionTitle sectionId title b = b
  /\ editColumnTitle sectionId columnId title b = b
  /\ editTaskTitle sectionId columnId taskId title b = b.
Proof.
  unfold editSectionTitle, editColumnTitle, editTaskTitle.
  rewrite Hblank. simpl. auto.
Qed.

Lemma rename_blank_title_unchanged_witness :
  editSectionTitle "1" "   " initialSections = initialSections
  /\ editColumnTitle "1" "c1" "   " initialSections = initialSections
  /\ editTaskTitle "1" "c1" "t1" "   " initialSections = initialSections.
Proof.
  apply (rename_blank_title_unchanged initialSections "1" "c1" "t1" "   ").
  reflexivity.
Defined.

(** The same guard in [addTask]: a blank title adds nothing. *)
Lemma addTask_blank_title_unchanged
    (b : Board) (now : Z) (sectionId columnId title : string) :
  whitespace_only title = true ->
  addTask now sectionId columnId title b = b.
Proof.
  intro H. apply trim_empty_iff in H.
  unfold addTask. rewrite H. reflexivity.
Qed.

(** ** Titles are stored as given *)

Lemma column_at_in_column
    (b : Board) (sectionId columnId : string) (f : Column -> Column)
    (i j : nat) (s : Section) (c : Column) :
  nth_error b i = Some s -> section_id s = sectionId ->
  nth_error (columns s) j = Some c -> column_id c = columnId ->
  column_at (in_column sectionId columnId f b) i j = Some (f c).
Proof.
  intros Hs Hsid Hc Hcid.
  unfold column_at, in_column.
  rewrite (nth_error_map_some _ _ _ _ Hs).
  apply String.eqb_eq in Hsid. rewrite Hsid. simpl.
  rewrite (nth_error_map_some _ _ _ _ Hc).
  apply String.eqb_eq in Hcid. rewrite Hcid. reflexivity.
Qed.

(** C10: with a title whose trimmed form is not empty, a rename stores the
    title as it was given: the Section, the Column or the Task renamed has
    the input string as its title and its other fields as they were; and
    [addTask] appends a Task whose title is the input string as it was
    given: nothing is trimmed off. *)
Theorem titles_stored_verbatim
    (b : Board) (title : string) (Htitle : trim title <> EmptyString) :
  (forall sectionId i s,
      nth_error b i = Some s -> section_id s = sectionId ->
      nth_error (editSectionTitle sectionId title b) i
      = Some (mkSection (section_id s) title (columns s)))
  /\ (forall sectionId columnId i j s c,
         nth_error b i = Some s -> section_id s = sectionId ->
         nth_error (columns s) j = Some c -> column_id c = columnId ->
         column_at (editColumnTitle sectionId columnId title b) i j
         = Some (mkColumn (column_id c) title (tasks c)))
  /\ (forall sectionId columnId taskId i j k s c t,
         nth_error b i = Some s -> section_id s = sectionId ->
         nth_error (columns s) j = Some c -> column_id c = columnId ->
         nth_error (tasks c) k = Some t -> task_id t = taskId ->
         task_at (editTaskTitle sectionId columnId taskId title b) i j k
         = Some (mkTask (task_id t) title (completed t)))
  /\ (forall now sectionId columnId i j s c,
         nth_error b i = Some s -> section_id s = sectionId ->
         nth_error (columns s) j = Some c -> column_id c = columnId ->
         column_at (addTask now sectionId columnId title b) i j
         = Some (mkColumn (column_id c) (column_title c)
                   (tasks c
                      ++ [mkTask ("task-" ++ toString now) title false]))).
Proof.
  apply truthy_trim in Htitle.
  unfold editSectionTitle, editColumnTitle, editTaskTitle, addTask.
  rewrite Htitle.
  repeat split.
  - intros sid i s Hs Hsid.
    rewrite (nth_error_map_some _ _ _ _ Hs).
    apply String.eqb_eq in Hsid. rewrite Hsid. reflexivity.
  - intros sid cid i j s c Hs Hsid Hc Hcid.
    erewrite column_at_in_column by eassumption. reflexivity.
  - intros sid cid tid i j k s c t Hs Hsid Hc Hcid Ht Htid.
    unfold task_at.
    erewrite column_at_in_column by eassumption.
    simpl. rewrite (nth_error_map_some _ _ _ _ Ht).
    apply String.eqb_eq in Htid. rewrite Htid. reflexivity.
  - intros now sid cid i j s c Hs Hsid Hc Hcid.
    erewrite column_at_in_column by eassumption. reflexivity.
Qed.

Lemma titles_stored_verbatim_witness :
  option_map section_title
    (nth_error (editSectionTitle "2" " Dev " initialSections) 1)
  = Some " Dev "
  /\ option_map column_title
       (column_at (editColumnTitle "1" "c2" " Dev " initialSections) 0 1)
     = Some " Dev "
  /\ option_map task_title
       (task_at (editTaskTitle "1" "c1" "t1" " Dev " initialSections) 0 0 0)
     = Some " Dev "
  /\ option_map tasks
       (column_at (addTask 7 "2" "c4" " Dev " initialSections) 1 0)
     = Some [ mkTask "task-7" " Dev " false ].
Proof.
  assert (H : trim " Dev " <> EmptyString) by (vm_compute; discriminate).
  destruct (titles_stored_verbatim initialSections " Dev " H)
    as [Hs [Hc [Ht Ha]]].
  split; [|split; [|split]].
  - erewrite (Hs "2" 1); [|reflexivity..]. reflexivity.
  - erewrite (Hc "1" "c2" 0 1); [|reflexivity..]. reflexivity.
  - erewrite (Ht "1" "c1" "t1" 0 0 0); [|reflexivity..]. reflexivity.
  - erewrite (Ha 7%Z "2" "c4" 1 0); [|reflexivity..]. reflexivity.
Defined.

Lemma append_assoc (s1 s2 s3 : string) :
  ((s1 ++ s2) ++ s3)%string = (s1 ++ s2 ++ s3)%string.
Proof.
  induction s1 as [|c s1 IH]; simpl; [reflexivity|].
  rewrite IH. reflexivity.
Qed.

Lemma append_nil_r (s : string) : (s ++ EmptyString)%string = s.
Proof.
  induction s as [|c s IH]; simpl; [reflexivity|].
  rewrite IH. reflexivity.
Qed.

Lemma length_append (s1 s2 : string) :
  String.length (s1 ++ s2) = String.length s1 + String.length s2.
Proof.
  induction s1 as [|c s1 IH]; simpl; [reflexivity|].
  rewrite IH. reflexivity.
Qed.

(** ** [clearCompletedTasks] *)

Lemma filter_idempotent {A} (p : A -> bool) (l : list A) :
  filter p (filter p l) = filter p l.
Proof.
  apply filter_all. intros x Hx. apply filter_In in Hx. tauto.
Qed.

(** C8: [clearCompletedTasks] applied twice gives what it gives applied once;
    it leaves every Section with another id as it is, and in a Section with
    the given id it keeps every Column, with exactly its Tasks that are not
    completed, in their order. *)
Theorem clearCompletedTasks_idempotent_exact
    (b : Board) (sectionId : string) :
  clearCompletedTasks sectionId (clearCompletedTasks sectionId b)
  = clearCompletedTasks sectionId b
  /\ List.length (clearCompletedTasks sectionId b) = List.length b
  /\ (forall i s,
         nth_error b i = Some s -> section_id s <> sectionId ->
         nth_error (clearCompletedTasks sectionId b) i = Some s)
  /\ (forall i s,
         nth_error b i = Some s -> section_id s = sectionId ->
         exists s',
           nth_error (clearCompletedTasks sectionId b) i = Some s'
           /\ section_id s' = section_id s
           /\ section_title s' = section_title s
           /\ List.length (columns s') = List.length (columns s)
           /\ forall j c,
               nth_error (columns s) j = Some c ->
               nth_error (columns s') j
               = Some (mkColumn (column_id c) (column_title c)
                         (filter (fun t => negb (completed t)) (tasks c)))).
Proof.
  unfold clearCompletedTasks.
  repeat split.
  - rewrite map_map. apply map_ext. intro s.
    destruct (section_id s =? sectionId) eqn:E; simpl; rewrite E.
    + unfold with_columns. simpl. f_equal.
      rewrite map_map. apply map_ext. intro c.
      unfold with_tasks. simpl. rewrite filter_idempotent. reflexivity.
    + reflexivity.
  - apply length_map.
  - intros i s Hs Hid.
    rewrite (nth_error_map_some _ _ _ _ Hs).
    apply String.eqb_neq in Hid. rewrite Hid. reflexivity.
  - intros i s Hs Hid.
    rewrite (nth_error_map_some _ _ _ _ Hs).
    apply String.eqb_eq in Hid. rewrite Hid.
    eexists. split; [reflexivity|]. simpl.
    repeat split.
    + apply length_map.
    + intros j c Hc. rewrite (nth_error_map_some _ _ _ _ Hc). reflexivity.
Qed.

Lemma clearCompletedTasks_idempotent_exact_witness :
  nth_error (clearCompletedTasks "2" initialSections) 0
  = nth_error initialSections 0
  /\ (exists s',
         nth_error (clearCompletedTasks "1" initialSections) 0 = Some s'
         /\ nth_error (columns s') 0
            = Some (mkColumn "c1" "To Do"
                      [ mkTask "t1" "Sample task 1" false ])).
Proof.
  split.
  - destruct (clearCompletedTasks_idempotent_exact initialSections "2")
      as [_ [_ [H _]]].
    apply (H 0 _ eq_refl). discriminate.
  - destruct (clearCompletedTasks_idempotent_exact initialSections "1")
      as [_ [_ [_ H]]].
    destruct (H 0 _ eq_refl eq_refl) as [s' [Hs' [_ [_ [_ Hc]]]]].
    exists s'. split; [exact Hs'|].
    apply (Hc 0 _ eq_refl).
Defined.

(** ** Markdown export *)

Lemma fold_left_push {A B} (f : A -> B) (l : list A) (acc : list B) :
  fold_left (fun lines x => lines ++ [f x]) l acc = acc ++ map f l.
Proof.
  revert acc. induction l as [|x l IH]; intro acc; simpl.
  - symmetry. apply app_nil_r.
  - rewrite IH, <- app_assoc. reflexivity.
Qed.

Lemma markdownLines_flat_map (s : Section) :
  markdownLines s
  = flat_map (fun c => map (markdownLine c) (tasks c)) (columns s).
Proof.
  unfold markdownLines.
  assert (H : forall cs acc,
             fold_left
               (fun lines column =>
                  fold_left (fun lines task => lines ++ [markdownLine column task])
                    (tasks column) lines) cs acc
             = acc ++ flat_map (fun c => map (markdownLine c) (tasks c)) cs).
  { induction cs as [|c cs IH]; intro acc; simpl.
    - symmetry. apply app_nil_r.
    - rewrite IH, fold_left_push, <- app_assoc. reflexivity. }
  apply (H (columns s) []).
Qed.

(** A joined text, with one more separator at its end, is each element
    followed by the separator: the join itself ends with no separator. *)
Lemma join_terminated (sep : string) (l : list string) :
  l <> [] ->
  (join sep l ++ sep)%string
  = fold_right (fun line r => (line ++ sep ++ r)%string) EmptyString l.
Proof.
  induction l as [|x l IH]; [congruence|]. intros _.
  destruct l as [|y l].
  - simpl. rewrite append_nil_r. reflexivity.
  - change (join sep (x :: y :: l))
      with (x ++ sep ++ join sep (y :: l))%string.
    rewrite !append_assoc. rewrite IH by discriminate. reflexivity.
Qed.

(** C9: the Markdown export has one line per Task, in the order of the
    Columns and, inside a Column, of its Tasks; a line is
    [- [x] <column title>: <task title>] for a completed Task and
    [- [ ] <column title>: <task title>] otherwise; the lines are joined by
    the line feed character (code unit 10), with none after the last: the
    text followed by one line feed is each line followed by a line feed; and
    the Section of the scenario gives ["- [ ] To Do: A\n- [x] Done: B"]. *)
Theorem markdown_export_lines (s : Section) :
  markdownLines s
  = flat_map
      (fun c =>
         map (fun t =>
                if completed t
                then ("- [x] " ++ column_title c ++ ": " ++ task_title t)%string
                else ("- [ ] " ++ column_title c ++ ": " ++ task_title t)%string)
           (tasks c))
      (columns s)
  /\ List.length (markdownLines s) = List.length (flat_map tasks (columns s))
  /\ copySectionAsMarkdown s
     = join (String (ascii_of_nat 10) EmptyString) (markdownLines s)
  /\ (markdownLines s = [] -> copySectionAsMarkdown s = EmptyString)
  /\ (markdownLines s <> [] ->
      (copySectionAsMarkdown s ++ String (ascii_of_nat 10) EmptyString)%string
      = fold_right
          (fun line r => (line ++ String (ascii_of_nat 10) r)%string)
          EmptyString (markdownLines s))
  /\ copySectionAsMarkdown
       (mkSection "s1" "Section"
          [ mkColumn "c1" "To Do" [ mkTask "t1" "A" false ];
            mkColumn "c2" "Done" [ mkTask "t2" "B" true ] ])
     = ("- [ ] To Do: A" ++ String (ascii_of_nat 10) "- [x] Done: B")%string.
Proof.
  split; [|split; [|split; [|split; [|split]]]].
  - rewrite markdownLines_flat_map.
    apply flat_map_ext. intro c. apply map_ext. intro t.
    unfold markdownLine. destruct (completed t); reflexivity.
  - rewrite markdownLines_flat_map.
    induction (columns s) as [|c cs IH]; simpl; [reflexivity|].
    rewrite !length_app, length_map, IH. reflexivity.
  - reflexivity.
  - intro H. unfold copySectionAsMarkdown. rewrite H. reflexivity.
  - intro H. unfold copySectionAsMarkdown.
    exact (join_terminated newline (markdownLines s) H).
  - reflexivity.
Qed.

Lemma markdown_export_lines_witness :
  (copySectionAsMarkdown
     (mkSection "s1" "Section"
        [ mkColumn "c1" "To Do" [ mkTask "t1" "A" false ];
          mkColumn "c2" "Done" [ mkTask "t2" "B" true ] ])
     ++ String (ascii_of_nat 10) EmptyString)%string
  = ("- [ ] To Do: A" ++ String (ascii_of_nat 10) "- [x] Done: B"
       ++ String (ascii_of_nat 10) EmptyString)%string.
Proof.
  destruct (markdown_export_lines
              (mkSection "s1" "Section"
                 [ mkColumn "c1" "To Do" [ mkTask "t1" "A" false ];
                   mkColumn "c2" "Done" [ mkTask "t2" "B" true ] ]))
    as [_ [_ [_ [_ [H _]]]]].
  rewrite H; [reflexivity|]. vm_compute. discriminate.
Defined.

(** ** Unknown ids *)

Lemma in_all_columns (b : Board) (s : Section) (c : Column) :
  In s b -> In c (columns s) -> In c (all_columns b).
Proof.
  intros Hs Hc. unfold all_columns. apply in_flat_map. eauto.
Qed.

Lemma in_all_tasks (b : Board) (s : Section) (c : Column) (t : Task) :
  In s b -> In c (columns s) -> In t (tasks c) -> In t (all_tasks b).
Proof.
  intros Hs Hc Ht. unfold all_tasks. apply in_flat_map.
  exists c. split; [eapply in_all_columns; eauto | exact Ht].
Qed.

(** A handler that addresses one Column changes nothing when its function
    changes none of the Columns it addresses. *)
Lemma in_column_unchanged
    (sectionId columnId : string) (f : Column -> Column) (b : Board) :
  (forall s c, In s b -> In c (columns s) ->
               section_id s = sectionId -> column_id c = columnId ->
               f c = c) ->
  in_column sectionId columnId f b = b.
Proof.
  intro H. unfold in_column. apply map_id_ext. intros s Hs.
  destruct (section_id s =? sectionId) eqn:Es; [|reflexivity].
  apply String.eqb_eq in Es.
  rewrite map_id_ext; [apply with_columns_same|].
  intros c Hc.
  destruct (column_id c =? columnId) eqn:Ec; [|reflexivity].
  apply String.eqb_eq in Ec. eauto.
Qed.

Lemma in_column_unknown_section
    (sectionId columnId : string) (f : Column -> Column) (b : Board) :
  has_section sectionId b = false -> in_column sectionId columnId f b = b.
Proof.
  intro H. apply in_column_unchanged. intros s c Hs _ Hid _.
  apply (existsb_false _ _ H) in Hs. apply String.eqb_neq in Hs. contradiction.
Qed.

Lemma in_column_unknown_column
    (sectionId columnId : string) (f : Column -> Column) (b : Board) :
  has_column columnId b = false -> in_column sectionId columnId f b = b.
Proof.
  intro H. apply in_column_unchanged. intros s c Hs Hc _ Hid.
  pose proof (existsb_false _ _ H c (in_all_columns b s c Hs Hc)) as E.
  apply String.eqb_neq in E. contradiction.
Qed.

Lemma in_column_unknown_task
    (sectionId columnId taskId : string) (g : list Task -> list Task)
    (b : Board) :
  (forall ts, (forall t, In t ts -> (task_id t =? taskId) = false) ->
              g ts = ts) ->
  has_task taskId b = false ->
  in_column sectionId columnId (fun col => with_tasks col (g (tasks col))) b
  = b.
Proof.
  intros Hg H. apply in_column_unchanged. intros s c Hs Hc _ _.
  rewrite Hg; [apply with_tasks_same|].
  intros t Ht. apply (existsb_false _ _ H). eapply in_all_tasks; eauto.
Qed.

Lemma section_map_unknown (sectionId : string) (f : Section -> Section)
    (b : Board) :
  has_section sectionId b = false ->
  map (fun section =>
         if section_id section =? sectionId then f section else section) b
  = b.
Proof.
  intro H. apply map_id_ext. intros s Hs.
  rewrite (existsb_false _ _ H s Hs). reflexivity.
Qed.

Lemma removeColumn_unknown_section (sectionId : string) (b : Board) :
  has_section sectionId b = false -> removeColumn sectionId b = b.
Proof.
  intro H. apply map_id_ext. intros s Hs.
  rewrite (existsb_false _ _ H s Hs). reflexivity.
Qed.

Lemma deleteSection_unknown_section (sectionId : string) (b : Board) :
  has_section sectionId b = false -> deleteSection sectionId b = b.
Proof.
  intro H. apply filter_all. intros s Hs.
  rewrite (existsb_false _ _ H s Hs). reflexivity.
Qed.

Lemma filter_unknown_task (taskId : string) (ts : list Task) :
  (forall t, In t ts -> (task_id t =? taskId) = false) ->
  filter (fun task => negb (task_id task =? taskId)) ts = ts.
Proof.
  intro H. apply filter_all. intros t Ht. rewrite (H t Ht). reflexivity.
Qed.

Lemma map_unknown_task (taskId : string) (f : Task -> Task) (ts : list Task) :
  (forall t, In t ts -> (task_id t =? taskId) = false) ->
  map (fun task => if task_id task =? taskId then f task else task) ts = ts.
Proof.
  intro H. apply map_id_ext. intros t Ht. rewrite (H t Ht). reflexivity.
Qed.

Lemma moveTask_unknown_source
    (task : Task) (fs fc ts tc : string) (b : Board) :
  unknown_source task fs fc b ->
  moveTask task fs fc ts tc b = in_column ts tc (with_appended task) b.
Proof.
  intro H. unfold moveTask, handleDragStart, handleDrop. simpl.
  fold (with_appended task). f_equal.
  destruct H as [H | [H | H]].
  - apply in_column_unknown_section; exact H.
  - apply in_column_unknown_column; exact H.
  - apply (in_column_unknown_task fs fc (task_id task)
             (filter (fun t => negb (task_id t =? task_id task)))).
    + apply filter_unknown_task.
    + exact H.
Qed.

(** C2, as the code has it: every handler other than a drop, invoked with a
    section id, a column id or a task id that matches nothing on the Board,
    returns the Board as it is.  A drop whose source matches nothing removes
    nothing and still appends the Task it carries to the destination; it
    returns the Board as it is when the destination matches nothing
    either. *)
Theorem unknown_id_is_noop
    (b : Board) (sectionId columnId taskId title : string) (now : Z) :
  (has_section sectionId b = false ->
   deleteSection sectionId b = b
   /\ clearCompletedTasks sectionId b = b
   /\ editSectionTitle sectionId title b = b
   /\ addColumn now sectionId b = b
   /\ removeColumn sectionId b = b
   /\ editColumnTitle sectionId columnId title b = b
   /\ addTask now sectionId columnId title b = b
   /\ deleteTask sectionId columnId taskId b = b
   /\ toggleTaskCompletion sectionId columnId taskId b = b
   /\ editTaskTitle sectionId columnId taskId title b = b)
  /\ (has_column columnId b = false ->
      editColumnTitle sectionId columnId title b = b
      /\ addTask now sectionId columnId title b = b
      /\ deleteTask sectionId columnId taskId b = b
      /\ toggleTaskCompletion sectionId columnId taskId b = b
      /\ editTaskTitle sectionId columnId taskId title b = b)
  /\ (has_task taskId b = false ->
      deleteTask sectionId columnId taskId b = b
      /\ toggleTaskCompletion sectionId columnId taskId b = b
      /\ editTaskTitle sectionId columnId taskId title b = b)
  /\ (forall task toSectionId toColumnId,
         unknown_source task sectionId columnId b ->
         moveTask task sectionId columnId toSectionId toColumnId b
         = in_column toSectionId toColumnId (with_appended task) b)
  /\ (forall task fromSectionId fromColumnId,
         unknown_source task fromSectionId fromColumnId b ->
         has_section sectionId b = false \/ has_column columnId b = false ->
         moveTask task fromSectionId fromColumnId sectionId columnId b = b).
Proof.
  split; [|split; [|split; [|split]]].
  - intro H.
    unfold clearCompletedTasks, editSectionTitle, addColumn, editColumnTitle,
      addTask, deleteTask, toggleTaskCompletion, editTaskTitle.
    destruct (truthy (trim title));
      repeat split;
      auto using deleteSection_unknown_section, section_map_unknown,
        removeColumn_unknown_section, in_column_unknown_section.
  - intro H.
    unfold editColumnTitle, addTask, deleteTask, toggleTaskCompletion,
      editTaskTitle.
    destruct (truthy (trim title));
      repeat split; auto using in_column_unknown_column.
  - intro H.
    unfold deleteTask, toggleTaskCompletion, editTaskTitle.
    repeat split.
    + apply (in_column_unknown_task sectionId columnId taskId
               (filter (fun t => negb (task_id t =? taskId))));
        [apply filter_unknown_task | exact H].
    + apply (in_column_unknown_task sectionId columnId taskId
               (map (fun t => if task_id t =? taskId
                              then with_completed t (negb (completed t))
                              else t)));
        [apply map_unknown_task | exact H].
    + destruct (truthy (trim title)); [|reflexivity].
      apply (in_column_unknown_task sectionId columnId taskId
               (map (fun t => if task_id t =? taskId
                              then with_task_title t title else t)));
        [apply map_unknown_task | exact H].
  - intros task ts tc H. apply moveTask_unknown_source. exact H.
  - intros task fs fc Hsrc Hdst.
    rewrite moveTask_unknown_source by exact Hsrc.
    destruct Hdst as [H | H].
    + apply in_column_unknown_section; exact H.
    + apply in_column_unknown_column; exact H.
Qed.

Lemma unknown_id_is_noop_witness :
  deleteTask "1" "c1" "t9" initialSections = initialSections
  /\ toggleTaskCompletion "1" "c1" "t9" initialSections = initialSections
  /\ editTaskTitle "1" "c1" "t9" "Ghost" initialSections = initialSections.
Proof.
  destruct (unknown_id_is_noop initialSections "1" "c1" "t9" "Ghost" 0%Z)
    as [_ [_ [H _]]].
  apply H. reflexivity.
Defined.

(** C2, as stated, fails on a drop: the Task carried has an id that matches
    no Task on the Board, and the Board changes, the Task being appended to
    the destination. *)
Lemma moveTask_unknown_task_changes_board :
  has_task "t9" initialSections = false
  /\ moveTask (mkTask "t9" "Ghost" false) "1" "c1" "2" "c4" initialSections
     <> initialSections
  /\ total_tasks
       (moveTask (mkTask "t9" "Ghost" false) "1" "c1" "2" "c4" initialSections)
     = S (total_tasks initialSections).
Proof.
  split; [reflexivity|]. split; [|reflexivity].
  vm_compute. discriminate.
Qed.

(** A drop whose destination matches nothing, from a source that holds the
    Task: the Task leaves its Column and arrives nowhere. *)
Lemma moveTask_unknown_destination_drops_task :
  has_column "c9" initialSections = false
  /\ total_tasks
       (moveTask (mkTask "t1" "Sample task 1" false) "1" "c1" "2" "c9"
          initialSections)
     = 2
  /\ total_tasks initialSections = 3.
Proof.
  repeat split.
Qed.

(** ** Counting Tasks across a drop *)

Lemma selected_cons (sectionId columnId : string) (s : Section) (b : Board) :
  selected sectionId columnId (s :: b)
  = (if section_id s =? sectionId
     then filter (fun c => column_id c =? columnId) (columns s)
     else [])
    ++ selected sectionId columnId b.
Proof.
  unfold selected. simpl.
  destruct (section_id s =? sectionId); simpl.
  - rewrite filter_app. reflexivity.
  - reflexivity.
Qed.

Lemma all_tasks_cons (s : Section) (b : Board) :
  all_tasks (s :: b) = flat_map tasks (columns s) ++ all_tasks b.
Proof.
  unfold all_tasks, all_columns. simpl. apply flat_map_app.
Qed.

Lemma list_sum_map_add {A} (g h : A -> nat) (l : list A) :
  list_sum (map (fun x => g x + h x) l)
  = list_sum (map g l) + list_sum (map h l).
Proof.
  induction l as [|x l IH]; simpl; [reflexivity|]. rewrite IH. lia.
Qed.

Lemma list_sum_map_const {A} (g : A -> nat) (k : nat) (l : list A) :
  list_sum (map (fun x => g x + k) l)
  = list_sum (map g l) + List.length l * k.
Proof.
  induction l as [|x l IH]; simpl; [reflexivity|]. rewrite IH. lia.
Qed.

(** A measure of a list of Tasks that adds up over concatenation: the number
    of Tasks, or the number of Tasks with a given id. *)
Section Additive.

Variable m : list Task -> nat.
Hypothesis m_app : forall l1 l2, m (l1 ++ l2) = m l1 + m l2.

Lemma m_nil : m [] = 0.
Proof.
  pose proof (m_app [] []) as H. simpl in H. lia.
Qed.

Lemma m_cons (t : Task) (l : list Task) : m (t :: l) = m [t] + m l.
Proof. apply (m_app [t] l). Qed.

Lemma m_filter_split (p : Task -> bool) (l : list Task) :
  m (filter p l) + m (filter (fun t => negb (p t)) l) = m l.
Proof.
  induction l as [|t l IH]; simpl.
  - rewrite m_nil. reflexivity.
  - rewrite (m_cons t l).
    destruct (p t); simpl; rewrite m_cons; lia.
Qed.

Lemma m_columns (columnId : string) (f : Column -> Column)
    (cs : list Column) :
  m (flat_map tasks
       (map (fun col => if column_id col =? columnId then f col else col)
          cs))
  + list_sum (map (fun c => m (tasks c))
                (filter (fun c => column_id c =? columnId) cs))
  = m (flat_map tasks cs)
    + list_sum (map (fun c => m (tasks (f c)))
                  (filter (fun c => column_id c =? columnId) cs)).
Proof.
  induction cs as [|c cs IH]; simpl.
  - reflexivity.
  - rewrite !m_app.
    destruct (column_id c =? columnId); simpl; lia.
Qed.

(** What a handler that addresses one Column does to the measure of the
    Board, in terms of the Columns it addresses. *)
Lemma m_in_column (sectionId columnId : string) (f : Column -> Column)
    (b : Board) :
  m (all_tasks (in_column sectionId columnId f b))
  + list_sum (map (fun c => m (tasks c)) (selected sectionId columnId b))
  = m (all_tasks b)
    + list_sum (map (fun c => m (tasks (f c)))
                  (selected sectionId columnId b)).
Proof.
  induction b as [|s b IH].
  - reflexivity.
  - change (in_column sectionId columnId f (s :: b))
      with ((if section_id s =? sectionId
             then with_columns s
                    (map (fun col =>
                            if column_id col =? columnId then f col else col)
                       (columns s))
             else s) :: in_column sectionId columnId f b).
    rewrite selected_cons, !all_tasks_cons, !m_app, !map_app, !list_sum_app.
    destruct (section_id s =? sectionId); simpl.
    + pose proof (m_columns columnId f (columns s)). lia.
    + lia.
Qed.

Lemma m_without_task (sectionId columnId taskId : string) (b : Board) :
  m (all_tasks (in_column sectionId columnId (without_task taskId) b))
  + list_sum
      (map (fun c => m (filter (fun t => task_id t =? taskId) (tasks c)))
         (selected sectionId columnId b))
  = m (all_tasks b).
Proof.
  pose proof (m_in_column sectionId columnId (without_task taskId) b) as H.
  rewrite (map_ext (fun c => m (tasks c))
             (fun c =>
                m (filter (fun t => task_id t =? taskId) (tasks c))
                + m (tasks (without_task taskId c)))) in H.
  - rewrite list_sum_map_add in H. lia.
  - intro c. symmetry.
    apply (m_filter_split (fun t => task_id t =? taskId)).
Qed.

Lemma m_with_appended (sectionId columnId : string) (task : Task)
    (b : Board) :
  m (all_tasks (in_column sectionId columnId (with_appended task) b))
  = m (all_tasks b)
    + List.length (selected sectionId columnId b) * m [task].
Proof.
  pose proof (m_in_column sectionId columnId (with_appended task) b) as H.
  rewrite (map_ext (fun c => m (tasks (with_appended task c)))
             (fun c => m (tasks c) + m [task])) in H.
  - rewrite list_sum_map_const in H. lia.
  - intro c. apply m_app.
Qed.

End Additive.

Lemma length_filter_app {A} (q : A -> bool) (l1 l2 : list A) :
  List.length (filter q (l1 ++ l2))
  = List.length (filter q l1) + List.length (filter q l2).
Proof.
  rewrite filter_app. apply length_app.
Qed.

(** A handler that keeps the ids of the Columns addresses the same number of
    Columns before and after. *)
Lemma selected_length_in_column
    (fs fc ts tc : string) (f : Column -> Column) (b : Board) :
  (forall c, column_id (f c) = column_id c) ->
  List.length (selected ts tc (in_column fs fc f b))
  = List.length (selected ts tc b).
Proof.
  intro Hf.
  assert (Hcs : forall cs,
             List.length
               (filter (fun c => column_id c =? tc)
                  (map (fun col => if column_id col =? fc then f col else col)
                     cs))
             = List.length (filter (fun c => column_id c =? tc) cs)).
  { induction cs as [|c cs IH]; simpl; [reflexivity|].
    replace (column_id (if column_id c =? fc then f c else c))
      with (column_id c) by (destruct (column_id c =? fc); auto).
    destruct (column_id c =? tc); simpl; rewrite IH; reflexivity. }
  induction b as [|s b IH]; [reflexivity|].
  change (in_column fs fc f (s :: b))
    with ((if section_id s =? fs
           then with_columns s
                  (map (fun col => if column_id col =? fc then f col else col)
                     (columns s))
           else s) :: in_column fs fc f b).
  rewrite !selected_cons, !length_app, IH. f_equal.
  destruct (section_id s =? fs); simpl; [|reflexivity].
  destruct (section_id s =? ts); [apply Hcs | reflexivity].
Qed.

(** The law of a drop, on any Board: the Tasks after it, and the Tasks with
    the id of the moved one that it found in the Columns of its source, are
    as many as the Tasks before it and the Columns of its destination. *)
Lemma moveTask_total_law (task : Task) (fs fc ts tc : string) (b : Board) :
  total_tasks (moveTask task fs fc ts tc b)
  + list_sum
      (map (fun c =>
              List.length
                (filter (fun t => task_id t =? task_id task) (tasks c)))
         (selected fs fc b))
  = total_tasks b + List.length (selected ts tc b).
Proof.
  unfold total_tasks, moveTask, handleDragStart, handleDrop. simpl.
  fold (without_task (task_id task)). fold (with_appended task).
  rewrite (m_with_appended (@List.length Task) (@length_app Task)).
  rewrite selected_length_in_column by reflexivity.
  pose proof (m_without_task (@List.length Task) (@length_app Task)
                fs fc (task_id task) b) as H.
  simpl. lia.
Qed.

Lemma moveTask_occurrences_law
    (task : Task) (fs fc ts tc : string) (b : Board) :
  occurrences (task_id task) (moveTask task fs fc ts tc b)
  + list_sum
      (map (fun c =>
              List.length
                (filter (fun t => task_id t =? task_id task) (tasks c)))
         (selected fs fc b))
  = occurrences (task_id task) b + List.length (selected ts tc b).
Proof.
  unfold occurrences, moveTask, handleDragStart, handleDrop. simpl.
  fold (without_task (task_id task)). fold (with_appended task).
  set (q := fun t : Task => task_id t =? task_id task).
  rewrite (m_with_appended (fun l => List.length (filter q l))
             (length_filter_app q)).
  rewrite selected_length_in_column by reflexivity.
  pose proof (m_without_task (fun l => List.length (filter q l))
                (length_filter_app q) fs fc (task_id task) b) as H.
  simpl in H.
  rewrite (map_ext _ (fun c => List.length (filter q (tasks c)))) in H
    by (intro c; fold q; rewrite filter_idempotent; reflexivity).
  simpl. unfold q at 2. rewrite String.eqb_refl. simpl. lia.
Qed.

(** ** A drop on a Board with unique ids *)

Lemma distinct_NoDup (l : list string) : distinct l = true -> NoDup l.
Proof.
  induction l as [|x l IH]; simpl; intro H.
  - constructor.
  - apply andb_true_iff in H. destruct H as [Hx Hl].
    constructor; [|auto].
    intro Hin. apply negb_true_iff in Hx.
    pose proof (existsb_false _ _ Hx x Hin) as E.
    rewrite String.eqb_refl in E. discriminate.
Qed.

Lemma NoDup_filter_le_1 {A} (f : A -> string) (a : string) (l : list A) :
  NoDup (map f l) ->
  List.length (filter (fun x => f x =? a) l) <= 1.
Proof.
  induction l as [|x l IH]; simpl; intro H; [lia|].
  inversion H as [|? ? Hx Hl]; subst.
  destruct (f x =? a) eqn:E; [|auto].
  apply String.eqb_eq in E. simpl.
  destruct (filter (fun y => f y =? a) l) as [|y r] eqn:F; [simpl; lia|].
  exfalso. apply Hx.
  assert (Hy : In y (filter (fun y => f y =? a) l))
    by (rewrite F; left; reflexivity).
  apply filter_In in Hy. destruct Hy as [Hy Ey].
  apply String.eqb_eq in Ey. rewrite E, <- Ey. apply in_map. exact Hy.
Qed.

Lemma selected_length_le (sectionId columnId : string) (b : Board) :
  List.length (selected sectionId columnId b)
  <= List.length (filter (fun c => column_id c =? columnId) (all_columns b)).
Proof.
  induction b as [|s b IH]; [reflexivity|].
  rewrite selected_cons. unfold all_columns in *. simpl.
  rewrite filter_app, !length_app.
  destruct (section_id s =? sectionId); simpl; lia.
Qed.

Lemma nonempty_length {A} (l : list A) : l <> [] -> 1 <= List.length l.
Proof.
  destruct l; [congruence | simpl; lia].
Qed.

Lemma existsb_filter_length {A} (p : A -> bool) (l : list A) :
  existsb p l = true <-> 1 <= List.length (filter p l).
Proof.
  induction l as [|x l IH]; simpl.
  - split; [discriminate | lia].
  - destruct (p x); simpl; [split; [lia | reflexivity] | exact IH].
Qed.

(** The source holds the Task: the sum of the law is at least one. *)
Lemma source_sum_ge_1 (taskId : string) (cs : list Column) :
  existsb (holds_task taskId) cs = true ->
  1 <= list_sum
         (map (fun c =>
                 List.length
                   (filter (fun t => task_id t =? taskId) (tasks c)))
            cs).
Proof.
  induction cs as [|c cs IH]; simpl; [discriminate|].
  intro H. apply orb_true_iff in H. destruct H as [H | H].
  - unfold holds_task in H. apply existsb_filter_length in H. lia.
  - apply IH in H. lia.
Qed.

(** Columns that hold a Task with the id, against Tasks with the id. *)
Lemma holding_vs_occurrences (taskId : string) (cs : list Column) :
  List.length (filter (holds_task taskId) cs)
  <= List.length (filter (fun t => task_id t =? taskId) (flat_map tasks cs))
  /\ (1 <= List.length
             (filter (fun t => task_id t =? taskId) (flat_map tasks cs)) ->
      1 <= List.length (filter (holds_task taskId) cs)).
Proof.
  induction cs as [|c cs [IH1 IH2]]; simpl; [split; lia|].
  rewrite filter_app, length_app.
  pose proof (existsb_filter_length (fun t => task_id t =? taskId) (tasks c))
    as E.
  fold (holds_task taskId c) in E.
  destruct (holds_task taskId c); simpl.
  - assert (1 <= List.length
                   (filter (fun t => task_id t =? taskId) (tasks c)))
      by (apply E; reflexivity).
    split; lia.
  - assert (List.length (filter (fun t => task_id t =? taskId) (tasks c)) = 0).
    { destruct (List.length
                  (filter (fun t => task_id t =? taskId) (tasks c)));
        [reflexivity|].
      assert (false = true) by (apply E; lia). discriminate. }
    split; [lia|]. intro. apply IH2. lia.
Qed.

(** C1, as the code has it: on a Board whose ids are unique, a drop of a
    Task that its source Column holds, onto a Column that exists, leaves the
    number of Tasks of the Board as it was, and afterwards the Board has one
    Task with the id of the moved one, in one Column. *)
Theorem moveTask_conservative
    (b : Board) (task : Task) (fs fc ts tc : string)
    (Hunique : unique_ids b)
    (Hsource : existsb (holds_task (task_id task)) (selected fs fc b) = true)
    (Hdestination : selected ts tc b <> []) :
  total_tasks (moveTask task fs fc ts tc b) = total_tasks b
  /\ occurrences (task_id task) (moveTask task fs fc ts tc b) = 1
  /\ columns_holding (task_id task) (moveTask task fs fc ts tc b) = 1.
Proof.
  destruct Hunique as [_ [Hcols Htasks]].
  pose proof (moveTask_total_law task fs fc ts tc b) as Htotal.
  pose proof (moveTask_occurrences_law task fs fc ts tc b) as Hocc.
  pose proof (source_sum_ge_1 _ _ Hsource) as Hge.
  pose proof (nonempty_length _ Hdestination) as Hdge.
  pose proof (selected_length_le ts tc b) as Hdle.
  pose proof (NoDup_filter_le_1 column_id tc (all_columns b) Hcols) as Hc1.
  pose proof (NoDup_filter_le_1 task_id (task_id task) (all_tasks b) Htasks)
    as Ht1.
  fold (occurrences (task_id task) b) in Ht1.
  pose proof (m_without_task
                (fun l => List.length
                            (filter (fun t => task_id t =? task_id task) l))
                (length_filter_app _) fs fc (task_id task) b) as Hle.
  simpl in Hle.
  rewrite (map_ext _ (fun c =>
                        List.length
                          (filter (fun t => task_id t =? task_id task)
                             (tasks c)))) in Hle
    by (intro c; rewrite filter_idempotent; reflexivity).
  fold (occurrences (task_id task) b) in Hle.
  assert (Ho : occurrences (task_id task) (moveTask task fs fc ts tc b) = 1)
    by lia.
  split; [lia|]. split; [exact Ho|].
  destruct (holding_vs_occurrences (task_id task)
              (all_columns (moveTask task fs fc ts tc b))) as [H1 H2].
  unfold columns_holding. unfold occurrences, all_tasks in Ho.
  lia.
Qed.

Lemma moveTask_conservative_witness :
  total_tasks
    (moveTask (mkTask "t1" "Sample task 1" false) "1" "c1" "2" "c4"
       initialSections)
  = total_tasks initialSections
  /\ occurrences "t1"
       (moveTask (mkTask "t1" "Sample task 1" false) "1" "c1" "2" "c4"
          initialSections)
     = 1
  /\ columns_holding "t1"
       (moveTask (mkTask "t1" "Sample task 1" false) "1" "c1" "2" "c4"
          initialSections)
     = 1.
Proof.
  apply (moveTask_conservative initialSections
           (mkTask "t1" "Sample task 1" false) "1" "c1" "2" "c4").
  - repeat split; apply distinct_NoDup; reflexivity.
  - reflexivity.
  - simpl. discriminate.
Defined.

(** The scenario of the spec: the one Task of [To Do] dropped on [Done]. *)
Example moveTask_write_spec :
  moveTask (mkTask "t" "Write spec" false) "s" "todo" "s" "done"
    [ mkSection "s" "Section"
        [ mkColumn "todo" "To Do" [ mkTask "t" "Write spec" false ];
          mkColumn "done" "Done" [] ] ]
  = [ mkSection "s" "Section"
        [ mkColumn "todo" "To Do" [];
          mkColumn "done" "Done" [ mkTask "t" "Write spec" false ] ] ].
Proof. reflexivity. Qed.

(** C1, as stated, fails.  On a Board that holds two Tasks with one id (an
    import accepts it), a drop of one of them removes both from the source
    and appends one: a Task is lost.  And a drop of a Task that its source
    no longer holds appends it all the same: the Board gains a Task. *)
Lemma moveTask_not_conservative :
  (let b := [ mkSection "s" "Section"
                [ mkColumn "a" "To Do"
                    [ mkTask "t" "Write spec" false;
                      mkTask "t" "Write spec again" false ];
                  mkColumn "b" "Done" [] ] ] in
   total_tasks b = 2
   /\ total_tasks (moveTask (mkTask "t" "Write spec" false) "s" "a" "s" "b" b)
      = 1)
  /\ (unique_ids initialSections
      /\ total_tasks initialSections = 3
      /\ total_tasks
           (moveTask (mkTask "t9" "Deleted since" false) "1" "c1" "2" "c4"
              initialSections)
         = 4).
Proof.
  split; [split; reflexivity|].
  split; [|split; reflexivity].
  repeat split; apply distinct_NoDup; reflexivity.
Qed.

(** ** Ids made from the clock *)

Lemma toString_inj (n m : Z) : toString n = toString m -> n = m.
Proof.
  unfold toString. intro H.
  apply DecimalZ.to_int_inj.
  assert (E : Some (Z.to_int n) = Some (Z.to_int m)).
  { rewrite <- !NilEmpty.isi. rewrite H. reflexivity. }
  injection E as E. exact E.
Qed.

Lemma append_inj_l (p s1 s2 : string) :
  (p ++ s1)%string = (p ++ s2)%string -> s1 = s2.
Proof.
  induction p as [|c p IH]; simpl; intro H; [exact H|].
  injection H as H. auto.
Qed.

(** How many elements of a list have the key [a]. *)
Lemma keyed_count_le_1_NoDup {A} (f : A -> string) (l : list A) :
  (forall a, List.length (filter (fun x => f x =? a) l) <= 1) ->
  NoDup (map f l).
Proof.
  induction l as [|x l IH]; simpl; intro H; constructor.
  - intro Hin. apply in_map_iff in Hin. destruct Hin as [y [Ey Hy]].
    specialize (H (f x)). rewrite String.eqb_refl in H. simpl in H.
    assert (Hy' : In y (filter (fun z => f z =? f x) l)).
    { apply filter_In. split; [exact Hy|]. apply String.eqb_eq. exact Ey. }
    destruct (filter (fun z => f z =? f x) l); [contradiction|].
    simpl in H. lia.
  - apply IH. intro a. specialize (H a).
    destruct (f x =? a); simpl in H; lia.
Qed.

Lemma keyed_count_notin {A} (f : A -> string) (a : string) (l : list A) :
  ~ In a (map f l) -> List.length (filter (fun x => f x =? a) l) = 0.
Proof.
  intro H.
  destruct (filter (fun x => f x =? a) l) as [|y r] eqn:F; [reflexivity|].
  exfalso. apply H.
  assert (Hy : In y (filter (fun x => f x =? a) l))
    by (rewrite F; left; reflexivity).
  apply filter_In in Hy. destruct Hy as [Hy Ey].
  apply String.eqb_eq in Ey. rewrite <- Ey. apply in_map. exact Hy.
Qed.

Lemma NoDup_snoc_keyed {A} (f : A -> string) (l : list A) (x : A) :
  NoDup (map f l) -> ~ In (f x) (map f l) -> NoDup (map f (l ++ [x])).
Proof.
  intros Hl Hx. apply keyed_count_le_1_NoDup. intro a.
  rewrite filter_app, length_app.
  pose proof (NoDup_filter_le_1 f a l Hl) as H1.
  simpl. destruct (f x =? a) eqn:E; simpl; [|lia].
  apply String.eqb_eq in E. subst a.
  rewrite (keyed_count_notin f (f x) l Hx). lia.
Qed.

Lemma all_columns_app (b1 b2 : Board) :
  all_columns (b1 ++ b2) = all_columns b1 ++ all_columns b2.
Proof. apply flat_map_app. Qed.

Lemma all_tasks_app (b1 b2 : Board) :
  all_tasks (b1 ++ b2) = all_tasks b1 ++ all_tasks b2.
Proof.
  unfold all_tasks. rewrite all_columns_app. apply flat_map_app.
Qed.

Lemma addSection_unique (now1 now2 : Z) (b : Board) :
  unique_ids b -> fresh (AddSection now1 now2) b ->
  unique_ids (addSection now1 now2 b).
Proof.
  intros [Hs [Hc Ht]] [Fs Fc]. unfold addSection. repeat split.
  - apply (NoDup_snoc_keyed section_id); assumption.
  - unfold column_ids. rewrite all_columns_app. simpl.
    apply (NoDup_snoc_keyed column_id (all_columns b)
             (mkColumn ("col-" ++ toString now2) "New Column" []));
      assumption.
  - unfold task_ids. rewrite all_tasks_app. simpl. rewrite app_nil_r.
    exact Ht.
Qed.

Lemma section_ids_map (f : Section -> Section) (b : Board) :
  (forall s, section_id (f s) = section_id s) ->
  section_ids (map f b) = section_ids b.
Proof.
  intro H. unfold section_ids. rewrite map_map. apply map_ext. exact H.
Qed.

Lemma addColumn_all_tasks (now : Z) (sectionId : string) (b : Board) :
  all_tasks (addColumn now sectionId b) = all_tasks b.
Proof.
  induction b as [|s b IH]; [reflexivity|].
  change (addColumn now sectionId (s :: b))
    with ((if section_id s =? sectionId
           then with_columns s
                  (columns s
                     ++ [mkColumn ("col-" ++ toString now) "New Column" []])
           else s) :: addColumn now sectionId b).
  rewrite !all_tasks_cons, IH. f_equal.
  destruct (section_id s =? sectionId); [|reflexivity].
  simpl. rewrite flat_map_app. simpl. apply app_nil_r.
Qed.

Lemma addColumn_column_count (now : Z) (sectionId a : string) (b : Board) :
  List.length
    (filter (fun c => column_id c =? a)
       (all_columns (addColumn now sectionId b)))
  = List.length (filter (fun c => column_id c =? a) (all_columns b))
    + (if ("col-" ++ toString now)%string =? a
       then List.length (filter (fun s => section_id s =? sectionId) b)
       else 0).
Proof.
  induction b as [|s b IH].
  - destruct (("col-" ++ toString now)%string =? a); reflexivity.
  - change (addColumn now sectionId (s :: b))
      with ((if section_id s =? sectionId
             then with_columns s
                    (columns s
                       ++ [mkColumn ("col-" ++ toString now) "New Column" []])
             else s) :: addColumn now sectionId b).
    change (all_columns (?x :: ?l)) with (columns x ++ all_columns l).
    rewrite !filter_app, !length_app, IH.
    generalize ("col-" ++ toString now)%string. intro k.
    change (filter (fun s0 => section_id s0 =? sectionId) (s :: b))
      with (if section_id s =? sectionId
            then s :: filter (fun s0 => section_id s0 =? sectionId) b
            else filter (fun s0 => section_id s0 =? sectionId) b).
    destruct (section_id s =? sectionId); simpl.
    + rewrite filter_app, length_app. simpl.
      destruct (k =? a); simpl; lia.
    + lia.
Qed.

Lemma addColumn_unique (now : Z) (sectionId : string) (b : Board) :
  unique_ids b -> fresh (AddColumn now sectionId) b ->
  unique_ids (addColumn now sectionId b).
Proof.
  intros [Hs [Hc Ht]] F.
  change (~ In ("col-" ++ toString now)%string (column_ids b)) in F.
  repeat split.
  - unfold addColumn. rewrite section_ids_map; [exact Hs|].
    intro s. destruct (section_id s =? sectionId); reflexivity.
  - apply keyed_count_le_1_NoDup. intro a.
    rewrite addColumn_column_count.
    pose proof (NoDup_filter_le_1 column_id a (all_columns b) Hc) as H1.
    destruct (("col-" ++ toString now)%string =? a) eqn:E; [|lia].
    apply String.eqb_eq in E. subst a.
    rewrite (keyed_count_notin column_id _ (all_columns b) F).
    apply (NoDup_filter_le_1 section_id sectionId b Hs).
  - unfold task_ids. rewrite addColumn_all_tasks. exact Ht.
Qed.

Lemma column_ids_in_column
    (sectionId columnId : string) (f : Column -> Column) (b : Board) :
  (forall c, column_id (f c) = column_id c) ->
  column_ids (in_column sectionId columnId f b) = column_ids b.
Proof.
  intro Hf. unfold column_ids, all_columns, in_column.
  induction b as [|s b IH]; [reflexivity|].
  simpl. rewrite !map_app, IH. f_equal.
  destruct (section_id s =? sectionId); [|reflexivity].
  simpl. rewrite map_map. apply map_ext. intro c.
  destruct (column_id c =? columnId); auto.
Qed.

Lemma with_appended_task_ids_unique
    (sectionId columnId : string) (task : Task) (b : Board) :
  NoDup (column_ids b) -> NoDup (task_ids b) ->
  ~ In (task_id task) (task_ids b) ->
  NoDup (task_ids (in_column sectionId columnId (with_appended task) b)).
Proof.
  intros Hc Ht F.
  apply keyed_count_le_1_NoDup. intro a.
  rewrite (m_with_appended
             (fun l => List.length (filter (fun t => task_id t =? a) l))
             (length_filter_app _)).
  pose proof (NoDup_filter_le_1 task_id a (all_tasks b) Ht) as H1.
  pose proof (selected_length_le sectionId columnId b) as H2.
  pose proof (NoDup_filter_le_1 column_id columnId (all_columns b) Hc) as H3.
  simpl. destruct (task_id task =? a) eqn:E; simpl.
  - apply String.eqb_eq in E. subst a.
    rewrite (keyed_count_notin task_id _ (all_tasks b) F). lia.
  - lia.
Qed.

Lemma addTask_unique
    (now : Z) (sectionId columnId title : string) (b : Board) :
  unique_ids b -> fresh (AddTask now sectionId columnId title) b ->
  unique_ids (addTask now sectionId columnId title b).
Proof.
  intros [Hs [Hc Ht]] F.
  change (~ In ("task-" ++ toString now)%string (task_ids b)) in F.
  unfold addTask.
  destruct (truthy (trim title)); [|repeat split; assumption].
  set (newTask := mkTask ("task-" ++ toString now) title false).
  fold (with_appended newTask).
  repeat split.
  - unfold in_column. rewrite section_ids_map; [exact Hs|].
    intro s. destruct (section_id s =? sectionId); reflexivity.
  - rewrite column_ids_in_column by reflexivity. exact Hc.
  - apply with_appended_task_ids_unique; assumption.
Qed.

(** C4, as the code has it: a sequence of creations, each of which makes
    from its clock readings ids that are not in use on the Board it is
    applied to, keeps the ids of each kind unique; and creations that read
    different clock values make different ids. *)
Theorem creations_keep_ids_unique
    (ops : list Creation) (b : Board)
    (Hunique : unique_ids b) (Hfresh : all_fresh ops b) :
  unique_ids (create_all ops b)
  /\ (forall n m : Z,
         n <> m ->
         toString n <> toString m
         /\ ("col-" ++ toString n)%string <> ("col-" ++ toString m)%string
         /\ ("task-" ++ toString n)%string <> ("task-" ++ toString m)%string).
Proof.
  split.
  - revert b Hunique Hfresh. unfold create_all.
    induction ops as [|op ops IH]; intros b Hunique Hfresh; simpl.
    + exact Hunique.
    + destruct Hfresh as [Hop Hrest].
      apply IH; [|exact Hrest].
      destruct op as [now1 now2 | now sid | now sid cid title]; simpl.
      * apply addSection_unique; assumption.
      * apply addColumn_unique; assumption.
      * apply addTask_unique; assumption.
  - intros n m Hnm.
    repeat split; intro E; apply Hnm, toString_inj.
    + exact E.
    + exact (append_inj_l _ _ _ E).
    + exact (append_inj_l _ _ _ E).
Qed.

Lemma creations_keep_ids_unique_witness :
  unique_ids
    (create_all
       [ AddSection 1762000000000 1762000000000;
         AddColumn 1762000000001 "1";
         AddTask 1762000000002 "1" "c1" "Plan" ]
       initialSections).
Proof.
  apply (creations_keep_ids_unique
           [ AddSection 1762000000000 1762000000000;
             AddColumn 1762000000001 "1";
             AddTask 1762000000002 "1" "c1" "Plan" ]
           initialSections).
  - repeat split; apply distinct_NoDup; reflexivity.
  - simpl. repeat split; vm_compute; intuition discriminate.
Defined.

(** C4, as stated, fails: two creations that read the same clock value make
    the same id.  Two Columns added to a Section in one millisecond share
    their id. *)
Lemma same_clock_reading_duplicates_id :
  unique_ids initialSections
  /\ ~ unique_ids
         (create_all
            [ AddColumn 1762000000000 "1"; AddColumn 1762000000000 "1" ]
            initialSections).
Proof.
  split.
  - repeat split; apply distinct_NoDup; reflexivity.
  - intros [_ [H _]].
    apply (NoDup_filter_le_1 column_id "col-1762000000000") in H.
    vm_compute in H. lia.
Qed.

Module JSONProofs.
Import JSON JSONFacts.

(** ** JSON text read back *)

Lemma value_ind (P : value -> Prop)
    (HNull : P Null) (HBool : forall b, P (Bool b))
    (HNumber : forall literal, P (Number literal))
    (HStr : forall s, P (Str s))
    (HArray : forall l, Forall P l -> P (Array l))
    (HObject : forall ms, Forall (fun m => P (snd m)) ms -> P (Object ms)) :
  forall v, P v.
Proof.
  fix IH 1. intros [ | b | literal | s | l | ms ].
  - exact HNull.
  - apply HBool.
  - apply HNumber.
  - apply HStr.
  - apply HArray. induction l as [|x l IHl]; constructor.
    + apply IH.
    + exact IHl.
  - apply HObject. induction ms as [|[k x] ms IHms]; constructor.
    + apply IH.
    + exact IHms.
Qed.

Lemma skip_ws_blank (w s : string) :
  blank w = true -> skip_ws (w ++ s) = skip_ws s.
Proof.
  induction w as [|c w IH]; simpl; intro H; [reflexivity|].
  apply andb_true_iff in H. destruct H as [Hc Hw].
  rewrite Hc. auto.
Qed.

Lemma blank_app (w1 w2 : string) :
  blank w1 = true -> blank w2 = true -> blank (w1 ++ w2) = true.
Proof.
  induction w1 as [|c w IH]; simpl; intros H1 H2; [exact H2|].
  apply andb_true_iff in H1. destruct H1 as [Hc Hw].
  rewrite Hc. simpl. auto.
Qed.

Lemma parse_chars_quote_char (c : ascii) (tail : string) :
  parse_chars (quote_char c ++ tail) = cons_char c (parse_chars tail).
Proof.
  destruct c as [[] [] [] [] [] [] [] []]; reflexivity.
Qed.

Lemma parse_chars_quote_chars (s rest : string) :
  parse_chars (quote_chars s ++ String dquote rest) = Some (s, rest).
Proof.
  induction s as [|c s IH].
  - reflexivity.
  - change (quote_chars (String c s))
      with (quote_char c ++ quote_chars s)%string.
    rewrite append_assoc, parse_chars_quote_char, IH. reflexivity.
Qed.

(** The text of a well-formed value starts with a character that is no
    white space and closes no array and no object. *)
Lemma serialize_head (ind : string) (v : value) :
  wf v ->
  exists c s',
    serialize ind v = String c s'
    /\ is_ws c = false
    /\ Ascii.eqb c "]" = false
    /\ Ascii.eqb c "}" = false
    /\ Ascii.eqb c dquote = (match v with Str _ => true | _ => false end).
Proof.
  destruct v as [ | [] | literal | s | [|x l] | [|m ms] ]; simpl; intro H;
    try contradiction; eexists; eexists; (split; [reflexivity|]);
    repeat split; reflexivity.
Qed.

Lemma set_member_fresh (k : string) (v : value) (acc : list (string * value)) :
  ~ In k (map fst acc) -> set_member k v acc = acc ++ [(k, v)].
Proof.
  induction acc as [|[k' v'] acc IH]; simpl; intro H; [reflexivity|].
  destruct (k' =? k) eqn:E.
  - apply String.eqb_eq in E. tauto.
  - rewrite IH by tauto. reflexivity.
Qed.

Lemma parse_elements_join (l : list value) (ind : string) :
  Forall reads_back l -> fold_right (fun x P => wf x /\ P) True l ->
  l <> [] -> blank ind = true ->
  forall fuel w tail rest,
    elements_weight l <= fuel -> blank w = true ->
    skip_ws tail = String "]" rest ->
    parse_elements fuel
      (w ++ join ("," ++ newline ++ ind) (map (serialize ind) l) ++ tail)
    = Some (l, rest).
Proof.
  intros Hall Hwf Hne Hind.
  induction l as [|x l IH]; [congruence|]. clear Hne.
  intros fuel w tail rest Hfuel Hw Htail.
  inversion Hall as [|? ? Hx Hl]; subst.
  destruct Hwf as [Wx Wl].
  unfold elements_weight in Hfuel. simpl in Hfuel.
  fold (elements_weight l) in Hfuel.
  destruct fuel as [|fuel]; [lia|].
  destruct l as [|y l].
  - change (join ("," ++ newline ++ ind) (map (serialize ind) [x]))
      with (serialize ind x).
    cbn [parse_elements].
    rewrite (Hx Wx fuel ind w tail) by (assumption || lia).
    rewrite Htail. reflexivity.
  - change (join ("," ++ newline ++ ind) (map (serialize ind) (x :: y :: l)))
      with (serialize ind x ++ ("," ++ newline ++ ind)
              ++ join ("," ++ newline ++ ind) (map (serialize ind) (y :: l)))%string.
    cbn [parse_elements].
    rewrite !append_assoc.
    rewrite (Hx Wx fuel ind w) by (assumption || lia).
    change (skip_ws ("," ++ ?s)%string) with (String "," s).
    cbv iota.
    change (Ascii.eqb "," ",") with true. cbv iota.
    rewrite <- (append_assoc newline ind).
    rewrite (IH Hl Wl ltac:(discriminate) fuel (newline ++ ind)%string
               tail rest); [reflexivity | lia | | exact Htail].
    apply blank_app; [reflexivity | exact Hind].
Qed.

Lemma QuoteJSONString_app (k s : string) :
  (QuoteJSONString k ++ s)%string
  = String dquote (quote_chars k ++ String dquote s).
Proof.
  unfold QuoteJSONString. simpl. rewrite append_assoc. reflexivity.
Qed.

(** One member read: its key, the colon, its value. *)
Lemma parse_members_step
    (fuel : nat) (w k ind tail : string) (x : value)
    (acc : list (string * value)) :
  reads_back x -> wf x -> weight x <= fuel ->
  blank w = true -> blank ind = true ->
  parse_members (S fuel)
    (w ++ QuoteJSONString k ++ ": " ++ serialize ind x ++ tail) acc
  = match skip_ws tail with
    | EmptyString => None
    | String c rest =>
        if Ascii.eqb c ","
        then parse_members fuel rest (set_member k x acc)
        else if Ascii.eqb c "}" then Some (set_member k x acc, rest)
             else None
    end.
Proof.
  intros Hx Wx Hfuel Hw Hind.
  cbn [parse_members].
  rewrite skip_ws_blank by exact Hw.
  rewrite QuoteJSONString_app.
  change (skip_ws (String dquote ?s)) with (String dquote s). cbv iota.
  rewrite Ascii.eqb_refl, parse_chars_quote_chars.
  change (skip_ws (": " ++ ?s)%string) with (String ":" (" " ++ s)).
  cbv iota. rewrite Ascii.eqb_refl.
  rewrite (Hx Wx fuel ind " " tail Hfuel eq_refl Hind).
  reflexivity.
Qed.

Lemma parse_members_join (ms : list (string * value)) (ind : string) :
  Forall (fun m => reads_back (snd m)) ms ->
  fold_right (fun m P => wf (snd m) /\ P) True ms ->
  ms <> [] -> blank ind = true ->
  forall fuel w tail rest acc,
    members_weight ms <= fuel -> blank w = true ->
    NoDup (map fst (acc ++ ms)) ->
    skip_ws tail = String "}" rest ->
    parse_members fuel
      (w ++ join ("," ++ newline ++ ind)
              (map (fun m => QuoteJSONString (fst m) ++ ": "
                               ++ serialize ind (snd m))%string ms)
         ++ tail) acc
    = Some (acc ++ ms, rest).
Proof.
  intros Hall Hwf Hne Hind.
  induction ms as [|[k x] ms IH]; [congruence|]. clear Hne.
  intros fuel w tail rest acc Hfuel Hw Hnodup Htail.
  inversion Hall as [|? ? Hx Hl]; subst. simpl in Hx.
  destruct Hwf as [Wx Wl]. simpl in Wx.
  unfold members_weight in Hfuel. simpl in Hfuel.
  fold (members_weight ms) in Hfuel.
  destruct fuel as [|fuel]; [lia|].
  assert (Hk : ~ In k (map fst acc)).
  { rewrite map_app in Hnodup. simpl in Hnodup.
    apply NoDup_remove_2 in Hnodup. intro Hin. apply Hnodup.
    apply in_or_app. left. exact Hin. }
  destruct ms as [|m' ms].
  - cbn [map join fst snd].
    rewrite !append_assoc.
    rewrite parse_members_step by (assumption || lia).
    rewrite Htail. cbv iota.
    change (Ascii.eqb "}" ",") with false.
    change (Ascii.eqb "}" "}") with true. cbv iota.
    rewrite set_member_fresh by exact Hk. reflexivity.
  - change (join ?sep (map ?f ((k, x) :: m' :: ms)))
      with (f (k, x) ++ sep ++ join sep (map f (m' :: ms)))%string.
    cbn [fst snd].
    rewrite !append_assoc.
    rewrite parse_members_step by (assumption || lia).
    change (skip_ws ("," ++ ?s)%string) with (String "," s).
    cbv iota.
    change (Ascii.eqb "," ",") with true. cbv iota.
    rewrite set_member_fresh by exact Hk.
    rewrite <- (append_assoc newline ind).
    rewrite (IH Hl Wl ltac:(discriminate) fuel (newline ++ ind)%string
               tail rest (acc ++ [(k, x)])).
    + rewrite <- app_assoc. reflexivity.
    + lia.
    + apply blank_app; [reflexivity | exact Hind].
    + rewrite <- app_assoc. exact Hnodup.
    + exact Htail.
Qed.

Lemma skip_ws_head (c : ascii) (s : string) :
  is_ws c = false -> skip_ws (String c s) = String c s.
Proof.
  intro H. simpl. rewrite H. reflexivity.
Qed.

Lemma join_cons_head (sep x : string) (l : list string) :
  exists t, join sep (x :: l) = (x ++ t)%string.
Proof.
  destruct l as [|y l].
  - exists EmptyString. simpl. symmetry. apply append_nil_r.
  - eexists. reflexivity.
Qed.

(** After the bracket of a non-empty array comes no closing bracket. *)
Lemma skip_ws_first_element
    (w sep ind tail : string) (x : value) (l : list value) :
  wf x -> blank w = true ->
  exists c s,
    skip_ws (w ++ join sep (map (serialize ind) (x :: l)) ++ tail)
    = String c s
    /\ Ascii.eqb c "]" = false.
Proof.
  intros Wx Hw. rewrite skip_ws_blank by exact Hw.
  destruct (join_cons_head sep (serialize ind x) (map (serialize ind) l))
    as [t Ht].
  change (map (serialize ind) (x :: l))
    with (serialize ind x :: map (serialize ind) l).
  rewrite Ht.
  destruct (serialize_head ind x Wx) as [c [s [E [Hc [H1 _]]]]].
  rewrite E. simpl. rewrite Hc. eauto.
Qed.

Lemma skip_ws_first_member
    (w sep tail : string) (f : string * value -> string)
    (m : string * value) (ms : list (string * value)) :
  blank w = true ->
  (forall m', exists s, f m' = String dquote s) ->
  exists s,
    skip_ws (w ++ join sep (map f (m :: ms)) ++ tail) = String dquote s.
Proof.
  intros Hw Hf. rewrite skip_ws_blank by exact Hw.
  destruct (join_cons_head sep (f m) (map f ms)) as [t Ht].
  change (map f (m :: ms)) with (f m :: map f ms).
  rewrite Ht. destruct (Hf m) as [s E]. rewrite E. simpl. eauto.
Qed.

Lemma blank_indent (ind : string) :
  blank ind = true -> blank (ind ++ gap) = true.
Proof.
  intro H. apply blank_app; [exact H | reflexivity].
Qed.

(** The text of a well-formed value, after any white space and before any
    text, is read back as the value, and the text that follows is left. *)
Lemma serialize_reads_back (v : value) : reads_back v.
Proof.
  induction v as [ | b | literal | s | l IHl | ms IHms ] using value_ind;
    intros W fuel ind w rest Hfuel Hw Hind;
    (destruct fuel as [|fuel]; [simpl in Hfuel; lia|]).
  - cbn [parse_value]. rewrite skip_ws_blank by exact Hw. reflexivity.
  - cbn [parse_value]. rewrite skip_ws_blank by exact Hw.
    destruct b; reflexivity.
  - contradiction.
  - cbn [parse_value serialize]. rewrite skip_ws_blank by exact Hw.
    rewrite QuoteJSONString_app.
    change (skip_ws (String dquote ?t)) with (String dquote t). cbv iota.
    change (Ascii.eqb dquote "n") with false.
    change (Ascii.eqb dquote "t") with false.
    change (Ascii.eqb dquote "f") with false.
    rewrite Ascii.eqb_refl. cbv iota.
    rewrite parse_chars_quote_chars. reflexivity.
  - destruct l as [|x l].
    + cbn [parse_value]. rewrite skip_ws_blank by exact Hw. reflexivity.
    + cbn [parse_value]. rewrite skip_ws_blank by exact Hw.
      pose proof (blank_indent ind Hind) as Hind'.
      change (serialize ind (Array (x :: l)))
        with ("[" ++ newline ++ (ind ++ gap)
                ++ join ("," ++ newline ++ (ind ++ gap))
                     (map (serialize (ind ++ gap)) (x :: l))
                ++ newline ++ ind ++ "]")%string.
      set (ind' := (ind ++ gap)%string) in *.
      rewrite !append_assoc.
      change (skip_ws ("[" ++ ?t)%string) with (String "[" t). cbv iota.
      change (Ascii.eqb "[" "n") with false.
      change (Ascii.eqb "[" "t") with false.
      change (Ascii.eqb "[" "f") with false.
      change (Ascii.eqb "[" dquote) with false.
      change (Ascii.eqb "[" "[") with true. cbv iota.
      rewrite <- (append_assoc newline ind').
      assert (Hw' : blank (newline ++ ind') = true)
        by (apply blank_app; [reflexivity | exact Hind']).
      destruct W as [Wx Wl].
      destruct (skip_ws_first_element (newline ++ ind')
                  ("," ++ newline ++ ind') ind'
                  (newline ++ ind ++ "]" ++ rest) x l Wx Hw')
        as [c [t [E Hc]]].
      rewrite E, Hc.
      rewrite (parse_elements_join (x :: l) ind' IHl (conj Wx Wl)
                 ltac:(discriminate) Hind' fuel (newline ++ ind')%string
                 (newline ++ ind ++ "]" ++ rest)%string rest).
      * reflexivity.
      * simpl in Hfuel. unfold elements_weight. simpl. lia.
      * exact Hw'.
      * rewrite <- append_assoc. rewrite skip_ws_blank; [reflexivity|].
        apply blank_app; [reflexivity | exact Hind].
  - destruct ms as [|m ms].
    + cbn [parse_value]. rewrite skip_ws_blank by exact Hw. reflexivity.
    + cbn [parse_value]. rewrite skip_ws_blank by exact Hw.
      pose proof (blank_indent ind Hind) as Hind'.
      change (serialize ind (Object (m :: ms)))
        with ("{" ++ newline ++ (ind ++ gap)
                ++ join ("," ++ newline ++ (ind ++ gap))
                     (map (fun m => QuoteJSONString (fst m) ++ ": "
                                      ++ serialize (ind ++ gap) (snd m))
                        (m :: ms))
                ++ newline ++ ind ++ "}")%string.
      set (ind' := (ind ++ gap)%string) in *.
      rewrite !append_assoc.
      change (skip_ws ("{" ++ ?t)%string) with (String "{" t). cbv iota.
      change (Ascii.eqb "{" "n") with false.
      change (Ascii.eqb "{" "t") with false.
      change (Ascii.eqb "{" "f") with false.
      change (Ascii.eqb "{" dquote) with false.
      change (Ascii.eqb "{" "[") with false.
      change (Ascii.eqb "{" "{") with true. cbv iota.
      rewrite <- (append_assoc newline ind').
      assert (Hw' : blank (newline ++ ind') = true)
        by (apply blank_app; [reflexivity | exact Hind']).
      destruct W as [Wk Wms].
      destruct (skip_ws_first_member (newline ++ ind')
                  ("," ++ newline ++ ind')
                  (newline ++ ind ++ "}" ++ rest)
                  (fun m => QuoteJSONString (fst m) ++ ": "
                              ++ serialize ind' (snd m))%string
                  m ms Hw') as [t E].
      { intro m'. eexists. reflexivity. }
      rewrite E.
      change (Ascii.eqb dquote "}") with false. cbv iota.
      rewrite (parse_members_join (m :: ms) ind' IHms Wms
                 ltac:(discriminate) Hind' fuel (newline ++ ind')%string
                 (newline ++ ind ++ "}" ++ rest)%string rest []).
      * reflexivity.
      * simpl in Hfuel. unfold members_weight. simpl. lia.
      * exact Hw'.
      * exact Wk.
      * rewrite <- append_assoc. rewrite skip_ws_blank; [reflexivity|].
        apply blank_app; [reflexivity | exact Hind].
Qed.

Lemma join_length_elements (sep : string) (f : value -> string)
    (l : list value) :
  Forall (fun x => weight x <= String.length (f x)) l ->
  1 <= String.length sep ->
  elements_weight l <= String.length (join sep (map f l)) + 1.
Proof.
  intros H Hsep. induction H as [|x l Hx Hl IH]; [simpl; lia|].
  unfold elements_weight in *. simpl fold_right.
  destruct l as [|y l].
  - simpl. lia.
  - change (join sep (map f (x :: y :: l)))
      with (f x ++ sep ++ join sep (map f (y :: l)))%string.
    rewrite !length_append. lia.
Qed.

Lemma join_length_members (sep : string) (f : string * value -> string)
    (ms : list (string * value)) :
  Forall (fun m => weight (snd m) <= String.length (f m)) ms ->
  1 <= String.length sep ->
  members_weight ms <= String.length (join sep (map f ms)) + 1.
Proof.
  intros H Hsep. induction H as [|x l Hx Hl IH]; [simpl; lia|].
  unfold members_weight in *. simpl fold_right.
  destruct l as [|y l].
  - simpl. lia.
  - change (join sep (map f (x :: y :: l)))
      with (f x ++ sep ++ join sep (map f (y :: l)))%string.
    rewrite !length_append. lia.
Qed.

(** The fuel [parse] gives is enough for the text of [stringify]. *)
Lemma weight_le_length (v : value) :
  wf v -> forall ind, weight v <= String.length (serialize ind v).
Proof.
  induction v as [ | b | literal | s | l IHl | ms IHms ] using value_ind;
    intros W ind.
  - simpl. lia.
  - destruct b; simpl; lia.
  - contradiction.
  - simpl. lia.
  - destruct l as [|x l]; [simpl; lia|].
    change (serialize ind (Array (x :: l)))
      with ("[" ++ newline ++ (ind ++ gap)
              ++ join ("," ++ newline ++ (ind ++ gap))
                   (map (serialize (ind ++ gap)) (x :: l))
              ++ newline ++ ind ++ "]")%string.
    change (weight (Array (x :: l))) with (S (elements_weight (x :: l))).
    pose proof (join_length_elements ("," ++ newline ++ (ind ++ gap))
                  (serialize (ind ++ gap)) (x :: l)) as H.
    rewrite !length_append.
    change (String.length "[") with 1.
    change (String.length "]") with 1.
    change (String.length newline) with 1.
    assert (elements_weight (x :: l)
            <= String.length
                 (join ("," ++ newline ++ (ind ++ gap))
                    (map (serialize (ind ++ gap)) (x :: l))) + 1).
    { apply H; [|simpl; lia].
      clear H. revert W IHl. generalize (x :: l). intros l0 W IHl0.
      induction IHl0 as [|y l0 Hy Hl0 IH]; constructor.
      - apply Hy. apply W.
      - apply IH. apply W. }
    lia.
  - destruct ms as [|m ms]; [simpl; lia|].
    change (serialize ind (Object (m :: ms)))
      with ("{" ++ newline ++ (ind ++ gap)
              ++ join ("," ++ newline ++ (ind ++ gap))
                   (map (fun m => QuoteJSONString (fst m) ++ ": "
                                    ++ serialize (ind ++ gap) (snd m))
                      (m :: ms))
              ++ newline ++ ind ++ "}")%string.
    change (weight (Object (m :: ms))) with (S (members_weight (m :: ms))).
    pose proof (join_length_members ("," ++ newline ++ (ind ++ gap))
                  (fun m => QuoteJSONString (fst m) ++ ": "
                              ++ serialize (ind ++ gap) (snd m))%string
                  (m :: ms)) as H.
    rewrite !length_append.
    change (String.length "{") with 1.
    change (String.length "}") with 1.
    change (String.length newline) with 1.
    assert (members_weight (m :: ms)
            <= String.length
                 (join ("," ++ newline ++ (ind ++ gap))
                    (map (fun m => QuoteJSONString (fst m) ++ ": "
                                     ++ serialize (ind ++ gap) (snd m))%string
                       (m :: ms))) + 1).
    { apply H; [|simpl; lia].
      clear H. destruct W as [_ W]. revert W IHms.
      generalize (m :: ms). intros l0 W IHl0.
      induction IHl0 as [|y l0 Hy Hl0 IH]; constructor.
      - rewrite !length_append.
        pose proof (Hy (proj1 W) (ind ++ gap)%string). lia.
      - apply IH. apply W. }
    lia.
Qed.

(** [JSON.parse] of [JSON.stringify] of a well-formed value is the value. *)
Lemma parse_stringify (v : value) : wf v -> parse (stringify v) = Some v.
Proof.
  intro W. unfold parse, stringify.
  pose proof (serialize_reads_back v W
                (S (String.length (serialize EmptyString v)))
                EmptyString EmptyString EmptyString) as H.
  cbn [append] in H. rewrite append_nil_r in H.
  rewrite H; [reflexivity| |reflexivity|reflexivity].
  pose proof (weight_le_length v W EmptyString). lia.
Qed.

End JSONProofs.

(** ** Export and import *)

Lemma wf_Array_map {A} (f : A -> JSON.value) (l : list A) :
  (forall x, JSONFacts.wf (f x)) -> JSONFacts.wf (JSON.Array (map f l)).
Proof.
  intro H. induction l as [|x l IH]; simpl; [exact I|].
  split; [apply H | exact IH].
Qed.

Lemma wf_task_json (t : Task) : JSONFacts.wf (task_json t).
Proof.
  simpl. split; [apply distinct_NoDup; reflexivity | tauto].
Qed.

Lemma wf_column_json (c : Column) : JSONFacts.wf (column_json c).
Proof.
  unfold column_json.
  split; [apply distinct_NoDup; reflexivity|].
  cbn [fold_right snd JSONFacts.wf].
  repeat split. apply (wf_Array_map task_json), wf_task_json.
Qed.

Lemma wf_section_json (s : Section) : JSONFacts.wf (section_json s).
Proof.
  unfold section_json.
  split; [apply distinct_NoDup; reflexivity|].
  cbn [fold_right snd JSONFacts.wf].
  repeat split. apply (wf_Array_map column_json), wf_column_json.
Qed.

Lemma wf_board_json (b : Board) : JSONFacts.wf (board_json b).
Proof.
  apply (wf_Array_map section_json), wf_section_json.
Qed.

Lemma map_injective {A B} (f : A -> B) (l l' : list A) :
  (forall x y, f x = f y -> x = y) -> map f l = map f l' -> l = l'.
Proof.
  intro Hf. revert l'.
  induction l as [|x l IH]; intros [|y l'] H; simpl in H;
    try discriminate; [reflexivity|].
  injection H as Hxy Hl. f_equal; auto.
Qed.

Lemma task_json_injective (t t' : Task) :
  task_json t = task_json t' -> t = t'.
Proof.
  destruct t, t'. unfold task_json. simpl. intro H.
  injection H as -> -> ->. reflexivity.
Qed.

Lemma column_json_injective (c c' : Column) :
  column_json c = column_json c' -> c = c'.
Proof.
  destruct c, c'. unfold column_json. simpl. intro H.
  injection H as -> -> H.
  apply (map_injective task_json) in H; [|apply task_json_injective].
  subst. reflexivity.
Qed.

Lemma section_json_injective (s s' : Section) :
  section_json s = section_json s' -> s = s'.
Proof.
  destruct s, s'. unfold section_json. simpl. intro H.
  injection H as -> -> H.
  apply (map_injective column_json) in H; [|apply column_json_injective].
  subst. reflexivity.
Qed.

Lemma board_json_injective (b b' : Board) :
  board_json b = board_json b' -> b = b'.
Proof.
  unfold board_json. intro H. injection H as H.
  apply (map_injective section_json) in H; [exact H|].
  apply section_json_injective.
Qed.

(** C5: the text exported from a Board, imported, is accepted with no
    message and gives the value of the Board that was exported, whatever
    the store held; and that value is the value of no other Board. *)
Theorem export_import_round_trip (b : Board) (current : JSON.value) :
  importData (Some (exportData (board_json b))) current
  = (board_json b, None)
  /\ (forall b' : Board, board_json b' = board_json b -> b' = b).
Proof.
  split.
  - unfold importData, importDataWith, exportData.
    rewrite (JSONProofs.parse_stringify _ (wf_board_json b)).
    reflexivity.
  - intros b' H. apply board_json_injective. exact H.
Qed.

Lemma export_import_round_trip_witness :
  importData (Some (exportData (board_json initialSections))) JSON.Null
  = (board_json initialSections, None).
Proof.
  exact (proj1 (export_import_round_trip initialSections JSON.Null)).
Defined.

(** C6: whatever [JSON.parse] and [Array.isArray] are, a text on which
    [JSON.parse] throws, or which it parses to a value that is no array,
    leaves the stored value as it is and gives a message; a text that it
    parses to an array makes that array the stored value, whatever is in it,
    and gives no message. *)
Theorem importData_rejects_or_accepts
    {V : Type} (JSON_parse : string -> option V) (isArray : V -> bool)
    (sections : V) (text : string) :
  (JSON_parse text = None ->
   importDataWith JSON_parse isArray (Some text) sections
   = (sections, Some read_error_message))
  /\ (forall v,
         JSON_parse text = Some v -> isArray v = false ->
         importDataWith JSON_parse isArray (Some text) sections
         = (sections, Some invalid_format_message))
  /\ (forall v,
         JSON_parse text = Some v -> isArray v = true ->
         importDataWith JSON_parse isArray (Some text) sections
         = (v, None)).
Proof.
  unfold importDataWith. repeat split.
  - intro H. rewrite H. reflexivity.
  - intros v H Hv. rewrite H, Hv. reflexivity.
  - intros v H Hv. rewrite H, Hv. reflexivity.
Qed.

(** The scenario of the spec: a file that holds the object [{"foo":"bar"}]. *)
Lemma importData_rejects_or_accepts_witness :
  importData
    (Some ("{" ++ JSON.QuoteJSONString "foo" ++ ":"
               ++ JSON.QuoteJSONString "bar" ++ "}")%string)
    (board_json initialSections)
  = (board_json initialSections, Some invalid_format_message).
Proof.
  destruct (importData_rejects_or_accepts JSON.parse JSON.isArray
              (board_json initialSections)
              ("{" ++ JSON.QuoteJSONString "foo" ++ ":"
                   ++ JSON.QuoteJSONString "bar" ++ "}")%string)
    as [_ [H _]].
  apply (H (JSON.Object [("foo", JSON.Str "bar")])); reflexivity.
Defined.

(** An array of anything is imported: here a number and an object with no
    id. *)
Lemma importData_accepts_any_array :
  importData (Some ("[1, {" ++ JSON.QuoteJSONString "title" ++ ": null}]")%string)
    (board_json initialSections)
  = (JSON.Array
       [ JSON.Number "1"; JSON.Object [("title", JSON.Null)] ],
     None).
Proof. reflexivity. Qed.

(** A text that is no JSON is refused with the other message. *)
Lemma importData_rejects_syntax_error :
  importData (Some "[1, 2") (board_json initialSections)
  = (board_json initialSections, Some read_error_message).
Proof. reflexivity. Qed.

(** * The handlers together *)

(** ** Position by position *)

Lemma column_at_in_column_at
    (b : Board) (sectionId columnId : string) (f : Column -> Column)
    (i j : nat) (s : Section) (c : Column) :
  nth_error b i = Some s -> nth_error (columns s) j = Some c ->
  column_at (in_column sectionId columnId f b) i j
  = Some (if (section_id s =? sectionId) && (column_id c =? columnId)
          then f c else c).
Proof.
  intros Hs Hc. unfold column_at, in_column.
  rewrite (nth_error_map_some _ _ _ _ Hs).
  destruct (section_id s =? sectionId); simpl.
  - rewrite (nth_error_map_some _ _ _ _ Hc). reflexivity.
  - exact Hc.
Qed.

Lemma in_column_in_column
    (sectionId columnId : string) (f g : Column -> Column) (b : Board) :
  (forall c, column_id (g c) = column_id c) ->
  in_column sectionId columnId f (in_column sectionId columnId g b)
  = in_column sectionId columnId (fun c => f (g c)) b.
Proof.
  intro Hg. unfold in_column. rewrite map_map. apply map_ext. intro s.
  destruct (section_id s =? sectionId) eqn:Es; simpl; rewrite Es;
    [|reflexivity].
  unfold with_columns. simpl. f_equal.
  rewrite map_map. apply map_ext. intro c.
  destruct (column_id c =? columnId) eqn:Ec.
  - rewrite Hg, Ec. reflexivity.
  - rewrite Ec. reflexivity.
Qed.

Lemma in_selected
    (b : Board) (sectionId columnId : string) (s : Section) (c : Column) :
  In s b -> section_id s = sectionId ->
  In c (columns s) -> column_id c = columnId ->
  In c (selected sectionId columnId b).
Proof.
  intros Hs Es Hc Ec. unfold selected.
  apply filter_In. split; [|apply String.eqb_eq; exact Ec].
  apply in_flat_map. exists s. split; [|exact Hc].
  apply filter_In. split; [exact Hs | apply String.eqb_eq; exact Es].
Qed.

(** ** [toggleTaskCompletion] *)

(** X1: [toggleTaskCompletion] applied twice with the same ids gives the
    Board back, on every Board. *)
Theorem toggleTaskCompletion_involutive
    (b : Board) (sectionId columnId taskId : string) :
  toggleTaskCompletion sectionId columnId taskId
    (toggleTaskCompletion sectionId columnId taskId b)
  = b.
Proof.
  unfold toggleTaskCompletion.
  rewrite in_column_in_column by reflexivity.
  apply in_column_unchanged. intros s c _ _ _ _.
  unfold with_tasks. simpl. rewrite map_map.
  rewrite map_id_ext; [destruct c; reflexivity|].
  intros t _. destruct (task_id t =? taskId) eqn:E; [|rewrite E; reflexivity].
  simpl. rewrite E. destruct t as [tid title done]. unfold with_completed.
  simpl. rewrite negb_involutive. reflexivity.
Qed.

(** X2: [toggleTaskCompletion] keeps every Task in its place with its id
    and its title; a Task with another id, and a Task of a Section or Column
    with another id, is left as it is, and a Task it addresses has its
    [completed] flag negated. *)
Theorem toggleTaskCompletion_flips_only_completed
    (b : Board) (sectionId columnId taskId : string)
    (i j k : nat) (s : Section) (c : Column) (t : Task)
    (Hs : nth_error b i = Some s)
    (Hc : nth_error (columns s) j = Some c)
    (Ht : nth_error (tasks c) k = Some t) :
  exists t',
    task_at (toggleTaskCompletion sectionId columnId taskId b) i j k = Some t'
    /\ task_id t' = task_id t
    /\ task_title t' = task_title t
    /\ completed t'
       = (if (section_id s =? sectionId) && (column_id c =? columnId)
             && (task_id t =? taskId)
          then negb (completed t) else completed t).
Proof.
  unfold task_at, toggleTaskCompletion.
  rewrite (column_at_in_column_at b sectionId columnId _ i j s c Hs Hc).
  destruct ((section_id s =? sectionId) && (column_id c =? columnId)); simpl.
  - rewrite (nth_error_map_some _ _ _ _ Ht).
    eexists. split; [reflexivity|].
    destruct (task_id t =? taskId); simpl; auto.
  - exists t. auto.
Qed.

Lemma toggleTaskCompletion_flips_only_completed_witness :
  exists t',
    task_at (toggleTaskCompletion "1" "c1" "t3" initialSections) 0 0 1
    = Some t'
    /\ task_id t' = "t3"
    /\ task_title t' = "Completed sample task"
    /\ completed t' = false.
Proof.
  exact (toggleTaskCompletion_flips_only_completed initialSections
           "1" "c1" "t3" 0 0 1 _ _ _ eq_refl eq_refl eq_refl).
Defined.

(** ** A creation undone *)

(** X3: [deleteTask] with the id [addTask] made undoes the [addTask], when
    no Task of the addressed Column had that id before. *)
Theorem deleteTask_undoes_addTask
    (b : Board) (now : Z) (sectionId columnId title : string)
    (Hnew : existsb (holds_task ("task-" ++ toString now))
              (selected sectionId columnId b) = false) :
  deleteTask sectionId columnId ("task-" ++ toString now)
    (addTask now sectionId columnId title b)
  = b.
Proof.
  set (newId := ("task-" ++ toString now)%string) in *.
  assert (Hc : forall s c, In s b -> In c (columns s) ->
                 section_id s = sectionId -> column_id c = columnId ->
                 filter (fun t => negb (task_id t =? newId)) (tasks c)
                 = tasks c).
  { intros s c Hs Hin Es Ec.
    apply filter_unknown_task.
    apply existsb_false.
    apply (existsb_false _ _ Hnew c).
    eapply in_selected; eauto. }
  unfold deleteTask, addTask.
  destruct (truthy (trim title)).
  - rewrite in_column_in_column by reflexivity.
    apply in_column_unchanged. intros s c Hs Hin Es Ec.
    unfold with_tasks. simpl. rewrite filter_app.
    rewrite (Hc s c Hs Hin Es Ec). simpl.
    fold newId. rewrite String.eqb_refl. simpl.
    rewrite app_nil_r. destruct c; reflexivity.
  - apply in_column_unchanged. intros s c Hs Hin Es Ec.
    rewrite (Hc s c Hs Hin Es Ec). apply with_tasks_same.
Qed.

Lemma deleteTask_undoes_addTask_witness :
  deleteTask "1" "c1" "task-1762000000000"
    (addTask 1762000000000 "1" "c1" "Plan" initialSections)
  = initialSections.
Proof.
  apply (deleteTask_undoes_addTask initialSections 1762000000000
           "1" "c1" "Plan").
  reflexivity.
Defined.

(** X4: [deleteSection] with the id [addSection] made undoes the
    [addSection], when no Section had that id before. *)
Theorem deleteSection_undoes_addSection
    (b : Board) (now1 now2 : Z)
    (Hnew : has_section (toString now1) b = false) :
  deleteSection (toString now1) (addSection now1 now2 b) = b.
Proof.
  unfold deleteSection, addSection. rewrite filter_app.
  fold (deleteSection (toString now1) b).
  rewrite deleteSection_unknown_section by exact Hnew.
  simpl. rewrite String.eqb_refl. simpl. apply app_nil_r.
Qed.

Lemma deleteSection_undoes_addSection_witness :
  deleteSection "1762000000000"
    (addSection 1762000000000 1762000000000 initialSections)
  = initialSections.
Proof.
  apply (deleteSection_undoes_addSection initialSections
           1762000000000 1762000000000).
  reflexivity.
Defined.

(** X5: [removeColumn] undoes [addColumn] on a Board where every Section
    has a Column. *)
Theorem removeColumn_undoes_addColumn
    (b : Board) (now : Z) (sectionId : string)
    (Hmin : min_one_column b = true) :
  removeColumn sectionId (addColumn now sectionId b) = b.
Proof.
  unfold removeColumn, addColumn. rewrite map_map.
  apply map_id_ext. intros s Hs.
  unfold min_one_column in Hmin.
  rewrite forallb_forall in Hmin. specialize (Hmin s Hs).
  apply Nat.leb_le in Hmin.
  destruct (section_id s =? sectionId) eqn:E; simpl; rewrite E; simpl.
  - rewrite length_app. simpl.
    replace (Nat.ltb 1 (List.length (columns s) + 1)) with true
      by (symmetry; apply Nat.ltb_lt; lia).
    rewrite slice_0_neg1_app. destruct s; reflexivity.
  - reflexivity.
Qed.

Lemma removeColumn_undoes_addColumn_witness :
  removeColumn "2" (addColumn 1762000000000 "2" initialSections)
  = initialSections.
Proof.
  apply (removeColumn_undoes_addColumn initialSections 1762000000000 "2").
  reflexivity.
Defined.

(** On a Section with no Column, [removeColumn] does not undo [addColumn]:
    the Column added is the only one and stays. *)
Lemma removeColumn_keeps_column_added_to_empty_section :
  removeColumn "s"
    (addColumn 5 "s" [ mkSection "s" "Imported" [] ])
  = [ mkSection "s" "Imported" [ mkColumn "col-5" "New Column" [] ] ].
Proof. reflexivity. Qed.

(** ** The effect of a drop, Column by Column *)

Lemma nth_error_in_column
    (b : Board) (sectionId columnId : string) (f : Column -> Column)
    (i : nat) (s : Section) :
  nth_error b i = Some s ->
  nth_error (in_column sectionId columnId f b) i
  = Some (if section_id s =? sectionId
          then with_columns s
                 (map (fun col =>
                         if column_id col =? columnId then f col else col)
                    (columns s))
          else s).
Proof.
  intro Hs. unfold in_column.
  rewrite (nth_error_map_some _ _ _ _ Hs). reflexivity.
Qed.

(** X6: after a drop, the Column at any position has its id and its title;
    its Tasks are the Tasks it had, without those with the id of the carried
    Task when the source ids address it, followed by the carried Task when
    the destination ids address it.  So a Column that is neither is left as
    it is, and a drop on the source Column moves the Task to its end. *)
Theorem moveTask_effect_on_each_column
    (b : Board) (task : Task) (fs fc ts tc : string)
    (i j : nat) (s : Section) (c : Column)
    (Hs : nth_error b i = Some s)
    (Hc : nth_error (columns s) j = Some c) :
  column_at (moveTask task fs fc ts tc b) i j
  = Some (mkColumn (column_id c) (column_title c)
            ((if (section_id s =? fs) && (column_id c =? fc)
              then filter (fun t => negb (task_id t =? task_id task))
                     (tasks c)
              else tasks c)
             ++ (if (section_id s =? ts) && (column_id c =? tc)
                 then [task] else []))).
Proof.
  unfold moveTask, handleDragStart, handleDrop. simpl.
  set (rem := fun col : Column =>
                with_tasks col
                  (filter (fun t => negb (task_id t =? task_id task))
                     (tasks col))).
  set (app := fun col : Column => with_tasks col (tasks col ++ [task])).
  pose proof (nth_error_in_column b fs fc rem i s Hs) as Hs1.
  assert (Hc1 : nth_error
                  (columns
                     (if section_id s =? fs
                      then with_columns s
                             (map (fun col =>
                                     if column_id col =? fc then rem col
                                     else col) (columns s))
                      else s)) j
                = Some (if (section_id s =? fs) && (column_id c =? fc)
                        then rem c else c)).
  { destruct (section_id s =? fs); simpl; [|exact Hc].
    rewrite (nth_error_map_some _ _ _ _ Hc). reflexivity. }
  rewrite (column_at_in_column_at _ ts tc app i j _ _ Hs1 Hc1).
  f_equal.
  replace (section_id (if section_id s =? fs
                       then with_columns s
                              (map (fun col =>
                                      if column_id col =? fc then rem col
                                      else col) (columns s))
                       else s))
    with (section_id s) by (destruct (section_id s =? fs); reflexivity).
  replace (column_id (if (section_id s =? fs) && (column_id c =? fc)
                      then rem c else c))
    with (column_id c)
    by (destruct ((section_id s =? fs) && (column_id c =? fc)); reflexivity).
  destruct ((section_id s =? fs) && (column_id c =? fc));
    destruct ((section_id s =? ts) && (column_id c =? tc));
    unfold app, rem, with_tasks; simpl;
    rewrite ?app_nil_r; destruct c; reflexivity.
Qed.

Lemma moveTask_effect_on_each_column_witness :
  column_at
    (moveTask (mkTask "t1" "Sample task 1" false) "1" "c1" "1" "c1"
       initialSections) 0 0
  = Some (mkColumn "c1" "To Do"
            [ mkTask "t3" "Completed sample task" true;
              mkTask "t1" "Sample task 1" false ]).
Proof.
  exact (moveTask_effect_on_each_column initialSections
           (mkTask "t1" "Sample task 1" false) "1" "c1" "1" "c1" 0 0 _ _
           eq_refl eq_refl).
Defined.

(** ** Counting Tasks across the other handlers *)

Lemma source_sum_le_occurrences
    (sectionId columnId taskId : string) (b : Board) :
  list_sum
    (map (fun c =>
            List.length (filter (fun t => task_id t =? taskId) (tasks c)))
       (selected sectionId columnId b))
  <= occurrences taskId b.
Proof.
  pose proof (m_without_task
                (fun l => List.length
                            (filter (fun t => task_id t =? taskId) l))
                (length_filter_app _) sectionId columnId taskId b) as H.
  simpl in H.
  rewrite (map_ext _ (fun c =>
                        List.length
                          (filter (fun t => task_id t =? taskId) (tasks c))))
    in H by (intro c; rewrite filter_idempotent; reflexivity).
  unfold occurrences. lia.
Qed.

Lemma filter_other_id (a taskId : string) (l : list Task) :
  a <> taskId ->
  filter (fun t => task_id t =? a) (filter (fun t => task_id t =? taskId) l)
  = [].
Proof.
  intro Hne. induction l as [|t l IH]; simpl; [reflexivity|].
  destruct (task_id t =? taskId) eqn:E; [|exact IH].
  simpl. rewrite IH.
  apply String.eqb_eq in E.
  destruct (task_id t =? a) eqn:Ea; [|reflexivity].
  apply String.eqb_eq in Ea. congruence.
Qed.

Lemma list_sum_map_zero {A} (g : A -> nat) (l : list A) :
  (forall x, g x = 0) -> list_sum (map g l) = 0.
Proof.
  intro H. induction l as [|x l IH]; simpl; [reflexivity|].
  rewrite H, IH. reflexivity.
Qed.

(** X7: on a Board with unique ids, [deleteTask] of a Task the addressed
    Column holds removes exactly one Task: the Board has one Task less, no
    Task with that id is left, and the Tasks with any other id are as many
    as before. *)
Theorem deleteTask_removes_exactly_one
    (b : Board) (sectionId columnId taskId : string)
    (Hunique : unique_ids b)
    (Hheld : existsb (holds_task taskId) (selected sectionId columnId b)
             = true) :
  S (total_tasks (deleteTask sectionId columnId taskId b)) = total_tasks b
  /\ has_task taskId (deleteTask sectionId columnId taskId b) = false
  /\ (forall a, a <> taskId ->
        occurrences a (deleteTask sectionId columnId taskId b)
        = occurrences a b).
Proof.
  destruct Hunique as [_ [_ Htasks]].
  unfold deleteTask. fold (without_task taskId).
  pose proof (source_sum_ge_1 _ _ Hheld) as Hge.
  pose proof (source_sum_le_occurrences sectionId columnId taskId b) as Hle.
  pose proof (NoDup_filter_le_1 task_id taskId (all_tasks b) Htasks) as H1.
  fold (occurrences taskId b) in H1.
  pose proof (m_without_task (@List.length Task) (@length_app Task)
                sectionId columnId taskId b) as Htotal.
  pose proof (m_without_task
                (fun l => List.length
                            (filter (fun t => task_id t =? taskId) l))
                (length_filter_app _) sectionId columnId taskId b) as Hocc.
  simpl in Hocc.
  rewrite (map_ext _ (fun c =>
                        List.length
                          (filter (fun t => task_id t =? taskId) (tasks c))))
    in Hocc by (intro c; rewrite filter_idempotent; reflexivity).
  fold (occurrences taskId b) in Hocc.
  split; [unfold total_tasks; lia|]. split.
  - unfold has_task.
    destruct (existsb (fun t => task_id t =? taskId)
                (all_tasks (in_column sectionId columnId
                              (without_task taskId) b))) eqn:E;
      [|reflexivity].
    apply existsb_filter_length in E. lia.
  - intros a Ha.
    pose proof (m_without_task
                  (fun l => List.length
                              (filter (fun t => task_id t =? a) l))
                  (length_filter_app _) sectionId columnId taskId b) as Ha'.
    simpl in Ha'.
    rewrite list_sum_map_zero in Ha'
      by (intro c; rewrite filter_other_id by exact Ha; reflexivity).
    unfold occurrences. lia.
Qed.

Lemma deleteTask_removes_exactly_one_witness :
  S (total_tasks (deleteTask "1" "c1" "t3" initialSections))
  = total_tasks initialSections
  /\ has_task "t3" (deleteTask "1" "c1" "t3" initialSections) = false
  /\ (forall a, a <> "t3" ->
        occurrences a (deleteTask "1" "c1" "t3" initialSections)
        = occurrences a initialSections).
Proof.
  apply (deleteTask_removes_exactly_one initialSections "1" "c1" "t3").
  - repeat split; apply distinct_NoDup; reflexivity.
  - reflexivity.
Defined.

(** X8: [addTask] adds one Task for every Column its ids address when the
    title passes the guard, and nothing otherwise; on a Board with unique
    ids that is at most one Task. *)
Theorem addTask_total
    (b : Board) (now : Z) (sectionId columnId title : string) :
  total_tasks (addTask now sectionId columnId title b)
  = total_tasks b
    + (if nonblank title
       then List.length (selected sectionId columnId b) else 0)
  /\ (unique_ids b -> List.length (selected sectionId columnId b) <= 1).
Proof.
  split.
  - unfold addTask, nonblank, total_tasks.
    destruct (truthy (trim title)); [|lia].
    set (newTask := mkTask ("task-" ++ toString now) title false).
    fold (with_appended newTask).
    rewrite (m_with_appended (@List.length Task) (@length_app Task)).
    simpl. lia.
  - intros [_ [Hc _]].
    pose proof (selected_length_le sectionId columnId b).
    pose proof (NoDup_filter_le_1 column_id columnId (all_columns b) Hc).
    lia.
Qed.

Lemma addTask_total_witness :
  List.length (selected "1" "c1" initialSections) <= 1.
Proof.
  apply (addTask_total initialSections 0 "1" "c1" "Plan").
  repeat split; apply distinct_NoDup; reflexivity.
Defined.

(** ** [deleteSection] *)

Lemma all_tasks_filter_split (p : Section -> bool) (b : Board) :
  List.length (all_tasks (filter p b))
  + List.length (all_tasks (filter (fun s => negb (p s)) b))
  = List.length (all_tasks b).
Proof.
  induction b as [|s b IH]; [reflexivity|].
  rewrite all_tasks_cons, length_app. simpl.
  destruct (p s); simpl; rewrite all_tasks_cons, length_app; lia.
Qed.

(** X9: [deleteSection] removes every Section with the id, with its Columns
    and their Tasks: no Section with the id is left, the other Sections are
    kept, the Board loses exactly the Tasks of the Sections removed, and a
    second [deleteSection] with the id changes nothing. *)
Theorem deleteSection_cascades (b : Board) (sectionId : string) :
  has_section sectionId (deleteSection sectionId b) = false
  /\ (forall s, In s (deleteSection sectionId b)
                <-> In s b /\ section_id s <> sectionId)
  /\ total_tasks (deleteSection sectionId b)
     + List.length
         (all_tasks (filter (fun s => section_id s =? sectionId) b))
     = total_tasks b
  /\ deleteSection sectionId (deleteSection sectionId b)
     = deleteSection sectionId b.
Proof.
  unfold deleteSection. repeat split.
  - unfold has_section.
    destruct (existsb (fun s => section_id s =? sectionId)
                (filter (fun s => negb (section_id s =? sectionId)) b))
      eqn:E; [|reflexivity].
    apply existsb_exists in E. destruct E as [s [Hs Es]].
    apply filter_In in Hs. destruct Hs as [_ Hs].
    rewrite Es in Hs. discriminate.
  - apply filter_In in H. tauto.
  - apply filter_In in H. destruct H as [_ H].
    apply negb_true_iff, String.eqb_neq in H. exact H.
  - intros [Hs Hne]. apply filter_In. split; [exact Hs|].
    apply negb_true_iff, String.eqb_neq. exact Hne.
  - unfold total_tasks.
    pose proof (all_tasks_filter_split
                  (fun s => negb (section_id s =? sectionId)) b) as H.
    rewrite (filter_ext (fun s => negb (negb (section_id s =? sectionId)))
               (fun s => section_id s =? sectionId)) in H
      by (intro s; apply negb_involutive).
    exact H.
  - apply filter_idempotent.
Qed.

(** * Invariants of the Board along any sequence of actions *)

Lemma forallb_map_preserved {A} (p : A -> bool) (f : A -> A) (l : list A) :
  (forall x, In x l -> p x = true -> p (f x) = true) ->
  forallb p l = true -> forallb p (map f l) = true.
Proof.
  induction l as [|x l IH]; simpl; intros Hf H; [reflexivity|].
  apply andb_true_iff in H. destruct H as [Hx Hl].
  rewrite Hf by auto. simpl. apply IH; auto.
Qed.

Lemma forallb_filter_preserved {A} (p q : A -> bool) (l : list A) :
  forallb p l = true -> forallb p (filter q l) = true.
Proof.
  induction l as [|x l IH]; simpl; intro H; [reflexivity|].
  apply andb_true_iff in H. destruct H as [Hx Hl].
  destruct (q x); simpl; [rewrite Hx|]; auto.
Qed.

Lemma forallb_firstn_preserved {A} (p : A -> bool) (n : nat) (l : list A) :
  forallb p l = true -> forallb p (firstn n l) = true.
Proof.
  revert n. induction l as [|x l IH]; intros [|n] H; simpl; try reflexivity.
  simpl in H. apply andb_true_iff in H. destruct H as [Hx Hl].
  rewrite Hx. simpl. auto.
Qed.

Lemma forallb_snoc {A} (p : A -> bool) (l : list A) (x : A) :
  forallb p l = true -> p x = true -> forallb p (l ++ [x]) = true.
Proof.
  intros Hl Hx. rewrite forallb_app, Hl. simpl. rewrite Hx. reflexivity.
Qed.

Lemma dragAndDrop_cases
    (i j k : nat) (ts tc : string) (b : Board) :
  dragAndDrop i j k ts tc b = b
  \/ exists s c t,
       nth_error b i = Some s /\ nth_error (columns s) j = Some c
       /\ nth_error (tasks c) k = Some t
       /\ dragAndDrop i j k ts tc b
          = moveTask t (section_id s) (column_id c) ts tc b.
Proof.
  unfold dragAndDrop.
  destruct (nth_error b i) as [s|] eqn:Hs; [|left; reflexivity].
  destruct (nth_error (columns s) j) as [c|] eqn:Hc; [|left; reflexivity].
  destruct (nth_error (tasks c) k) as [t|] eqn:Ht; [|left; reflexivity].
  right. exists s, c, t. repeat split; assumption.
Qed.

Lemma moveTask_two_steps (task : Task) (fs fc ts tc : string) (b : Board) :
  moveTask task fs fc ts tc b
  = in_column ts tc (with_appended task)
      (in_column fs fc (without_task (task_id task)) b).
Proof. reflexivity. Qed.

(** ** At least one Column *)

Lemma min_one_column_in_column
    (sectionId columnId : string) (f : Column -> Column) (b : Board) :
  min_one_column b = true ->
  min_one_column (in_column sectionId columnId f b) = true.
Proof.
  unfold min_one_column, in_column. apply forallb_map_preserved.
  intros s _ H. destruct (section_id s =? sectionId); [|exact H].
  simpl. rewrite length_map. exact H.
Qed.

Lemma min_one_column_act (a : Action) (b : Board) :
  min_one_column b = true -> min_one_column (act b a) = true.
Proof.
  intro H.
  destruct a as [now1 now2 | sid | sid | sid title | now sid | sid
                | sid cid title | now sid cid title | sid cid tid
                | sid cid tid | sid cid tid title | i j k ts tc]; simpl.
  - unfold addSection, min_one_column. apply forallb_snoc; [exact H|].
    reflexivity.
  - unfold deleteSection, min_one_column.
    apply forallb_filter_preserved. exact H.
  - unfold clearCompletedTasks, min_one_column.
    apply forallb_map_preserved; [|exact H].
    intros s _ Hs. destruct (section_id s =? sid); [|exact Hs].
    simpl. rewrite length_map. exact Hs.
  - unfold editSectionTitle. destruct (truthy (trim title)); [|exact H].
    unfold min_one_column. apply forallb_map_preserved; [|exact H].
    intros s _ Hs. destruct (section_id s =? sid); exact Hs.
  - unfold addColumn, min_one_column.
    apply forallb_map_preserved; [|exact H].
    intros s _ Hs. destruct (section_id s =? sid); [|exact Hs].
    cbn [with_columns columns]. apply Nat.leb_le.
    rewrite length_app. simpl. lia.
  - unfold removeColumn, min_one_column.
    apply forallb_map_preserved; [|exact H].
    intros s _ Hs.
    destruct (section_id s =? sid); cbn [andb]; [|exact Hs].
    destruct (Nat.ltb 1 (List.length (columns s))) eqn:E; [|exact Hs].
    apply Nat.ltb_lt in E. cbn [with_columns columns].
    unfold slice_0_neg1. apply Nat.leb_le. rewrite length_firstn. lia.
  - unfold editColumnTitle. destruct (truthy (trim title)); [|exact H].
    apply min_one_column_in_column. exact H.
  - unfold addTask. destruct (truthy (trim title)); [|exact H].
    apply min_one_column_in_column. exact H.
  - apply min_one_column_in_column. exact H.
  - apply min_one_column_in_column. exact H.
  - unfold editTaskTitle. destruct (truthy (trim title)); [|exact H].
    apply min_one_column_in_column. exact H.
  - destruct (dragAndDrop_cases i j k ts tc b)
      as [E | [s [c [t [_ [_ [_ E]]]]]]]; rewrite E; [exact H|].
    rewrite moveTask_two_steps.
    apply min_one_column_in_column, min_one_column_in_column. exact H.
Qed.

(** X10: no sequence of actions takes the last Column of a Section: on a
    Board where every Section has a Column, every Section has a Column after
    any sequence of actions. *)
Theorem run_keeps_min_one_column
    (actions : list Action) (b : Board)
    (Hmin : min_one_column b = true) :
  min_one_column (run actions b) = true.
Proof.
  revert b Hmin. unfold run.
  induction actions as [|a actions IH]; intros b Hmin; simpl.
  - exact Hmin.
  - apply IH. apply min_one_column_act. exact Hmin.
Qed.

Lemma run_keeps_min_one_column_witness :
  min_one_column
    (run [ DoRemoveColumn "2"; DoRemoveColumn "2"; DoRemoveColumn "2";
           DoAddSection 7 7; DoRemoveColumn "7" ]
       initialSections)
  = true.
Proof.
  apply (run_keeps_min_one_column
           [ DoRemoveColumn "2"; DoRemoveColumn "2"; DoRemoveColumn "2";
             DoAddSection 7 7; DoRemoveColumn "7" ]
           initialSections).
  reflexivity.
Defined.

(** ** No blank title *)

Lemma no_blank_titles_in_column
    (sectionId columnId : string) (f : Column -> Column) (b : Board) :
  (forall c, column_titled c = true -> column_titled (f c) = true) ->
  no_blank_titles b = true ->
  no_blank_titles (in_column sectionId columnId f b) = true.
Proof.
  intro Hf. unfold no_blank_titles, in_column.
  apply forallb_map_preserved.
  intros s _ Hs. destruct (section_id s =? sectionId); [|exact Hs].
  unfold section_titled in *. simpl.
  apply andb_true_iff in Hs. destruct Hs as [Ht Hc].
  rewrite Ht. simpl.
  apply forallb_map_preserved; [|exact Hc].
  intros c _ Hcc. destruct (column_id c =? columnId); auto.
Qed.

Lemma column_titled_with_tasks (c : Column) (ts : list Task) :
  column_titled c = true ->
  forallb (fun t => nonblank (task_title t)) ts = true ->
  column_titled (with_tasks c ts) = true.
Proof.
  unfold column_titled. simpl. intros H Hts.
  apply andb_true_iff in H. destruct H as [H _].
  rewrite H, Hts. reflexivity.
Qed.

Lemma column_titled_tasks (c : Column) :
  column_titled c = true ->
  forallb (fun t => nonblank (task_title t)) (tasks c) = true.
Proof.
  unfold column_titled. intro H. apply andb_true_iff in H. tauto.
Qed.

Lemma no_blank_titles_task_at
    (b : Board) (i j k : nat) (s : Section) (c : Column) (t : Task) :
  no_blank_titles b = true ->
  nth_error b i = Some s -> nth_error (columns s) j = Some c ->
  nth_error (tasks c) k = Some t ->
  nonblank (task_title t) = true.
Proof.
  intros H Hs Hc Ht.
  unfold no_blank_titles in H. rewrite forallb_forall in H.
  specialize (H s (nth_error_In _ _ Hs)).
  unfold section_titled in H. apply andb_true_iff in H. destruct H as [_ H].
  rewrite forallb_forall in H.
  specialize (H c (nth_error_In _ _ Hc)).
  apply column_titled_tasks in H. rewrite forallb_forall in H.
  exact (H t (nth_error_In _ _ Ht)).
Qed.

Lemma no_blank_titles_act (a : Action) (b : Board) :
  no_blank_titles b = true -> no_blank_titles (act b a) = true.
Proof.
  intro H.
  destruct a as [now1 now2 | sid | sid | sid title | now sid | sid
                | sid cid title | now sid cid title | sid cid tid
                | sid cid tid | sid cid tid title | i j k ts tc]; simpl.
  - unfold addSection, no_blank_titles. apply forallb_snoc; [exact H|].
    reflexivity.
  - unfold deleteSection, no_blank_titles.
    apply forallb_filter_preserved. exact H.
  - unfold clearCompletedTasks, no_blank_titles.
    apply forallb_map_preserved; [|exact H].
    intros s _ Hs. destruct (section_id s =? sid); [|exact Hs].
    unfold section_titled in *. simpl.
    apply andb_true_iff in Hs. destruct Hs as [Ht Hc].
    rewrite Ht. simpl.
    apply forallb_map_preserved; [|exact Hc].
    intros c _ Hcc. apply column_titled_with_tasks; [exact Hcc|].
    apply forallb_filter_preserved, column_titled_tasks. exact Hcc.
  - unfold editSectionTitle.
    destruct (truthy (trim title)) eqn:T; [|exact H].
    unfold no_blank_titles. apply forallb_map_preserved; [|exact H].
    intros s _ Hs. destruct (section_id s =? sid); [|exact Hs].
    unfold section_titled in *. simpl.
    apply andb_true_iff in Hs. destruct Hs as [_ Hc].
    unfold nonblank. rewrite T, Hc. reflexivity.
  - unfold addColumn, no_blank_titles.
    apply forallb_map_preserved; [|exact H].
    intros s _ Hs. destruct (section_id s =? sid); [|exact Hs].
    unfold section_titled in *. simpl.
    apply andb_true_iff in Hs. destruct Hs as [Ht Hc].
    rewrite Ht. simpl. apply forallb_snoc; [exact Hc | reflexivity].
  - unfold removeColumn, no_blank_titles.
    apply forallb_map_preserved; [|exact H].
    intros s _ Hs.
    destruct ((section_id s =? sid) && Nat.ltb 1 (List.length (columns s)));
      [|exact Hs].
    unfold section_titled in *. simpl.
    apply andb_true_iff in Hs. destruct Hs as [Ht Hc].
    rewrite Ht. simpl. apply forallb_firstn_preserved. exact Hc.
  - unfold editColumnTitle.
    destruct (truthy (trim title)) eqn:T; [|exact H].
    apply no_blank_titles_in_column; [|exact H].
    intros c Hc. unfold column_titled in *. simpl.
    apply andb_true_iff in Hc. destruct Hc as [_ Hc].
    unfold nonblank at 1. rewrite T, Hc. reflexivity.
  - unfold addTask.
    destruct (truthy (trim title)) eqn:T; [|exact H].
    apply no_blank_titles_in_column; [|exact H].
    intros c Hc. apply column_titled_with_tasks; [exact Hc|].
    apply forallb_snoc; [apply column_titled_tasks; exact Hc|].
    unfold nonblank. simpl. exact T.
  - unfold deleteTask.
    apply no_blank_titles_in_column; [|exact H].
    intros c Hc. apply column_titled_with_tasks; [exact Hc|].
    apply forallb_filter_preserved, column_titled_tasks. exact Hc.
  - unfold toggleTaskCompletion.
    apply no_blank_titles_in_column; [|exact H].
    intros c Hc. apply column_titled_with_tasks; [exact Hc|].
    apply forallb_map_preserved; [|apply column_titled_tasks; exact Hc].
    intros t _ Ht. destruct (task_id t =? tid); exact Ht.
  - unfold editTaskTitle.
    destruct (truthy (trim title)) eqn:T; [|exact H].
    apply no_blank_titles_in_column; [|exact H].
    intros c Hc. apply column_titled_with_tasks; [exact Hc|].
    apply forallb_map_preserved; [|apply column_titled_tasks; exact Hc].
    intros t _ Ht. destruct (task_id t =? tid); [|exact Ht].
    unfold nonblank. simpl. exact T.
  - destruct (dragAndDrop_cases i j k ts tc b)
      as [E | [s [c [t [Hs [Hc [Ht E]]]]]]]; rewrite E; [exact H|].
    rewrite moveTask_two_steps.
    pose proof (no_blank_titles_task_at b i j k s c t H Hs Hc Ht) as Hn.
    apply no_blank_titles_in_column.
    + intros c' Hc'. apply column_titled_with_tasks; [exact Hc'|].
      apply forallb_snoc; [apply column_titled_tasks; exact Hc' | exact Hn].
    + apply no_blank_titles_in_column; [|exact H].
      intros c' Hc'. apply column_titled_with_tasks; [exact Hc'|].
      apply forallb_filter_preserved, column_titled_tasks. exact Hc'.
Qed.

(** X11: no sequence of actions, the twelve handlers of [Action], stores a
    blank title: on a Board where no Section, Column or Task has a title of
    white space only, none has one after any sequence of them.
    [importData] is no [Action]: it stores the array of the file, whatever
    its titles. *)
Theorem run_keeps_titles_nonblank
    (actions : list Action) (b : Board)
    (Htitled : no_blank_titles b = true) :
  no_blank_titles (run actions b) = true.
Proof.
  revert b Htitled. unfold run.
  induction actions as [|a actions IH]; intros b Htitled; simpl.
  - exact Htitled.
  - apply IH. apply no_blank_titles_act. exact Htitled.
Qed.

Lemma run_keeps_titles_nonblank_witness :
  no_blank_titles
    (run [ DoEditSectionTitle "1" "   "; DoAddTask 7 "1" "c1" " ";
           DoEditTaskTitle "1" "c1" "t1" ""; DoAddColumn 8 "2";
           DoDragAndDrop 0 0 0 "2" "c4" ]
       initialSections)
  = true.
Proof.
  apply (run_keeps_titles_nonblank
           [ DoEditSectionTitle "1" "   "; DoAddTask 7 "1" "c1" " ";
             DoEditTaskTitle "1" "c1" "t1" ""; DoAddColumn 8 "2";
             DoDragAndDrop 0 0 0 "2" "c4" ]
           initialSections).
  reflexivity.
Defined.

(** ** Unique ids *)

Lemma unique_ids_of_counts (b b' : Board) :
  unique_ids b ->
  (forall a,
      List.length (filter (fun s => section_id s =? a) b')
      <= List.length (filter (fun s => section_id s =? a) b)) ->
  (forall a,
      List.length (filter (fun c => column_id c =? a) (all_columns b'))
      <= List.length (filter (fun c => column_id c =? a) (all_columns b))) ->
  (forall a,
      List.length (filter (fun t => task_id t =? a) (all_tasks b'))
      <= List.length (filter (fun t => task_id t =? a) (all_tasks b))) ->
  unique_ids b'.
Proof.
  intros [Hs [Hc Ht]] Ks Kc Kt. repeat split.
  - apply keyed_count_le_1_NoDup. intro a.
    pose proof (NoDup_filter_le_1 section_id a b Hs). specialize (Ks a). lia.
  - apply keyed_count_le_1_NoDup. intro a.
    pose proof (NoDup_filter_le_1 column_id a (all_columns b) Hc).
    specialize (Kc a). lia.
  - apply keyed_count_le_1_NoDup. intro a.
    pose proof (NoDup_filter_le_1 task_id a (all_tasks b) Ht).
    specialize (Kt a). lia.
Qed.

Lemma filter_filter_le {A} (p q : A -> bool) (l : list A) :
  List.length (filter q (filter p l)) <= List.length (filter q l).
Proof.
  induction l as [|x l IH]; simpl; [lia|].
  destruct (p x); simpl; destruct (q x); simpl; lia.
Qed.

Lemma filter_firstn_le {A} (q : A -> bool) (n : nat) (l : list A) :
  List.length (filter q (firstn n l)) <= List.length (filter q l).
Proof.
  rewrite <- (firstn_skipn n l) at 2.
  rewrite filter_app, length_app. lia.
Qed.

Lemma filter_map_same_key {A} (key : A -> string) (m : A -> A) (a : string)
    (l : list A) :
  (forall x, key (m x) = key x) ->
  List.length (filter (fun x => key x =? a) (map m l))
  = List.length (filter (fun x => key x =? a) l).
Proof.
  intro H. induction l as [|x l IH]; simpl; [reflexivity|].
  rewrite H. destruct (key x =? a); simpl; rewrite IH; reflexivity.
Qed.

Lemma flat_map_tasks_map_le (h : Column -> Column) (a : string)
    (cs : list Column) :
  (forall c,
      List.length (filter (fun t => task_id t =? a) (tasks (h c)))
      <= List.length (filter (fun t => task_id t =? a) (tasks c))) ->
  List.length (filter (fun t => task_id t =? a) (flat_map tasks (map h cs)))
  <= List.length (filter (fun t => task_id t =? a) (flat_map tasks cs)).
Proof.
  intro H. induction cs as [|c cs IH]; simpl; [lia|].
  rewrite !filter_app, !length_app. specialize (H c). lia.
Qed.

(** A handler that maps over the Sections keeps the ids unique when, Section
    by Section, it keeps the section id and adds no Column and no Task with
    any id. *)
Lemma map_sections_unique (g : Section -> Section) (b : Board) :
  (forall s, section_id (g s) = section_id s) ->
  (forall s a,
      List.length (filter (fun c => column_id c =? a) (columns (g s)))
      <= List.length (filter (fun c => column_id c =? a) (columns s))) ->
  (forall s a,
      List.length
        (filter (fun t => task_id t =? a) (flat_map tasks (columns (g s))))
      <= List.length
           (filter (fun t => task_id t =? a) (flat_map tasks (columns s)))) ->
  unique_ids b -> unique_ids (map g b).
Proof.
  intros Hs Hc Ht Hu.
  apply (unique_ids_of_counts b); [exact Hu| | |]; intro a.
  - rewrite (filter_map_same_key section_id g a b Hs). lia.
  - induction b as [|s b IH]; [simpl; lia|].
    unfold all_columns in *. simpl.
    rewrite !filter_app, !length_app.
    specialize (Hc s a).
    assert (unique_ids b) as Hb.
    { destruct Hu as [U1 [U2 U3]]. unfold unique_ids, section_ids,
        column_ids, task_ids, all_tasks, all_columns in *. simpl in *.
      rewrite flat_map_app, !map_app in *.
      inversion U1; subst.
      apply NoDup_app_remove_l in U2. apply NoDup_app_remove_l in U3.
      auto. }
    specialize (IH Hb). lia.
  - induction b as [|s b IH]; [simpl; lia|].
    change (map g (s :: b)) with (g s :: map g b).
    rewrite !all_tasks_cons, !filter_app, !length_app.
    specialize (Ht s a).
    assert (unique_ids b) as Hb.
    { destruct Hu as [U1 [U2 U3]]. unfold unique_ids, section_ids,
        column_ids, task_ids, all_tasks, all_columns in *. simpl in *.
      rewrite flat_map_app, !map_app in *.
      inversion U1; subst.
      apply NoDup_app_remove_l in U2. apply NoDup_app_remove_l in U3.
      auto. }
    specialize (IH Hb). lia.
Qed.

Lemma in_column_unique
    (sectionId columnId : string) (f : Column -> Column) (b : Board) :
  (forall c, column_id (f c) = column_id c) ->
  (forall c a,
      List.length (filter (fun t => task_id t =? a) (tasks (f c)))
      <= List.length (filter (fun t => task_id t =? a) (tasks c))) ->
  unique_ids b -> unique_ids (in_column sectionId columnId f b).
Proof.
  intros Hid Hts. unfold in_column. apply map_sections_unique.
  - intro s. destruct (section_id s =? sectionId); reflexivity.
  - intros s a. destruct (section_id s =? sectionId); [|lia].
    simpl. rewrite (filter_map_same_key column_id); [lia|].
    intro c. destruct (column_id c =? columnId); auto.
  - intros s a. destruct (section_id s =? sectionId); [|lia].
    simpl. apply flat_map_tasks_map_le.
    intro c. destruct (column_id c =? columnId); [apply Hts | lia].
Qed.

Lemma all_columns_filter_le (p : Section -> bool) (q : Column -> bool)
    (b : Board) :
  List.length (filter q (all_columns (filter p b)))
  <= List.length (filter q (all_columns b)).
Proof.
  induction b as [|s b IH]; [simpl; lia|].
  unfold all_columns in *. simpl.
  destruct (p s); simpl; rewrite !filter_app, !length_app; lia.
Qed.

Lemma all_tasks_filter_le (p : Section -> bool) (q : Task -> bool)
    (b : Board) :
  List.length (filter q (all_tasks (filter p b)))
  <= List.length (filter q (all_tasks b)).
Proof.
  induction b as [|s b IH]; [simpl; lia|].
  rewrite all_tasks_cons, filter_app, length_app. simpl.
  destruct (p s); [rewrite all_tasks_cons, filter_app, length_app|]; lia.
Qed.

Lemma moveTask_other_occurrences
    (task : Task) (fs fc ts tc a : string) (b : Board) :
  a <> task_id task ->
  occurrences a (moveTask task fs fc ts tc b) = occurrences a b.
Proof.
  intro Ha. rewrite moveTask_two_steps. unfold occurrences.
  rewrite (m_with_appended
             (fun l => List.length (filter (fun t => task_id t =? a) l))
             (length_filter_app _)).
  pose proof (m_without_task
                (fun l => List.length (filter (fun t => task_id t =? a) l))
                (length_filter_app _) fs fc (task_id task) b) as H.
  simpl in H.
  rewrite list_sum_map_zero in H
    by (intro c; rewrite filter_other_id by exact Ha; reflexivity).
  simpl.
  replace (task_id task =? a) with false
    by (symmetry; apply String.eqb_neq; congruence).
  simpl. lia.
Qed.

(** A drop of a Task that its source Column holds keeps the ids of a Board
    unique, whatever its destination. *)
Lemma moveTask_keeps_ids_unique
    (b : Board) (task : Task) (fs fc ts tc : string)
    (Hunique : unique_ids b)
    (Hsource : existsb (holds_task (task_id task)) (selected fs fc b) = true) :
  unique_ids (moveTask task fs fc ts tc b).
Proof.
  pose proof Hunique as [Hs [Hc Ht]].
  repeat split.
  - rewrite moveTask_two_steps. unfold in_column.
    rewrite !section_ids_map; [exact Hs| |];
      intro s; destruct (section_id s =? _); reflexivity.
  - rewrite moveTask_two_steps.
    rewrite !column_ids_in_column by reflexivity. exact Hc.
  - apply keyed_count_le_1_NoDup. intro a.
    fold (all_tasks (moveTask task fs fc ts tc b)).
    fold (occurrences a (moveTask task fs fc ts tc b)).
    pose proof (NoDup_filter_le_1 task_id a (all_tasks b) Ht) as H1.
    fold (occurrences a b) in H1.
    destruct (String.eqb_spec a (task_id task)) as [E | E].
    + subst a.
      pose proof (moveTask_occurrences_law task fs fc ts tc b) as Hlaw.
      pose proof (source_sum_ge_1 _ _ Hsource) as Hge.
      pose proof (selected_length_le ts tc b) as Hd.
      pose proof (NoDup_filter_le_1 column_id tc (all_columns b) Hc) as Hd1.
      lia.
    + rewrite moveTask_other_occurrences by exact E. exact H1.
Qed.


Lemma with_tasks_filter_count (c : Column) (p : Task -> bool) (a : string) :
  List.length
    (filter (fun t => task_id t =? a) (tasks (with_tasks c (filter p (tasks c)))))
  <= List.length (filter (fun t => task_id t =? a) (tasks c)).
Proof. simpl. apply filter_filter_le. Qed.

Lemma with_tasks_map_count (c : Column) (m : Task -> Task) (a : string) :
  (forall t, task_id (m t) = task_id t) ->
  List.length
    (filter (fun t => task_id t =? a) (tasks (with_tasks c (map m (tasks c)))))
  <= List.length (filter (fun t => task_id t =? a) (tasks c)).
Proof.
  intro H. simpl. rewrite (filter_map_same_key task_id m a _ H). lia.
Qed.

Lemma flat_map_tasks_firstn_le (q : Task -> bool) (n : nat)
    (cs : list Column) :
  List.length (filter q (flat_map tasks (firstn n cs)))
  <= List.length (filter q (flat_map tasks cs)).
Proof.
  rewrite <- (firstn_skipn n cs) at 2.
  rewrite flat_map_app, filter_app, length_app. lia.
Qed.

Lemma nth_error_holds
    (b : Board) (i j k : nat) (s : Section) (c : Column) (t : Task) :
  nth_error b i = Some s -> nth_error (columns s) j = Some c ->
  nth_error (tasks c) k = Some t ->
  existsb (holds_task (task_id t)) (selected (section_id s) (column_id c) b)
  = true.
Proof.
  intros Hs Hc Ht. apply existsb_exists. exists c. split.
  - apply (in_selected b _ _ s c);
      [exact (nth_error_In _ _ Hs) | reflexivity
      | exact (nth_error_In _ _ Hc) | reflexivity].
  - unfold holds_task. apply existsb_exists. exists t.
    split; [eapply nth_error_In; eauto | apply String.eqb_refl].
Qed.

Lemma unique_ids_act (a : Action) (b : Board) :
  unique_ids b -> fresh_action a b -> unique_ids (act b a).
Proof.
  intros H F.
  destruct a as [now1 now2 | sid | sid | sid title | now sid | sid
                | sid cid title | now sid cid title | sid cid tid
                | sid cid tid | sid cid tid title | i j k ts tc];
    cbn [act fresh_action] in *.
  - apply addSection_unique; assumption.
  - apply (unique_ids_of_counts b); [exact H| | |]; intro a;
      unfold deleteSection.
    + apply filter_filter_le.
    + apply all_columns_filter_le.
    + apply all_tasks_filter_le.
  - unfold clearCompletedTasks. apply map_sections_unique; [| | |exact H].
    + intro s. destruct (section_id s =? sid); reflexivity.
    + intros s a. destruct (section_id s =? sid); [|lia].
      simpl. rewrite (filter_map_same_key column_id); [lia|reflexivity].
    + intros s a. destruct (section_id s =? sid); [|lia].
      simpl. apply flat_map_tasks_map_le. intro c.
      apply with_tasks_filter_count.
  - unfold editSectionTitle. destruct (truthy (trim title)); [|exact H].
    apply map_sections_unique; [| | |exact H].
    + intro s. destruct (section_id s =? sid); reflexivity.
    + intros s a. destruct (section_id s =? sid); simpl; lia.
    + intros s a. destruct (section_id s =? sid); simpl; lia.
  - apply addColumn_unique; assumption.
  - unfold removeColumn. apply map_sections_unique; [| | |exact H].
    + intro s.
      destruct ((section_id s =? sid) && Nat.ltb 1 (List.length (columns s)));
        reflexivity.
    + intros s a.
      destruct ((section_id s =? sid) && Nat.ltb 1 (List.length (columns s)));
        [|lia].
      apply filter_firstn_le.
    + intros s a.
      destruct ((section_id s =? sid) && Nat.ltb 1 (List.length (columns s)));
        [|lia].
      apply flat_map_tasks_firstn_le.
  - unfold editColumnTitle. destruct (truthy (trim title)); [|exact H].
    apply in_column_unique; [reflexivity| |exact H].
    intros c a. simpl. lia.
  - apply addTask_unique; assumption.
  - unfold deleteTask. apply in_column_unique; [reflexivity| |exact H].
    intros c a. apply with_tasks_filter_count.
  - unfold toggleTaskCompletion.
    apply in_column_unique; [reflexivity| |exact H].
    intros c a. apply with_tasks_map_count.
    intro t. destruct (task_id t =? tid); reflexivity.
  - unfold editTaskTitle. destruct (truthy (trim title)); [|exact H].
    apply in_column_unique; [reflexivity| |exact H].
    intros c a. apply with_tasks_map_count.
    intro t. destruct (task_id t =? tid); reflexivity.
  - destruct (dragAndDrop_cases i j k ts tc b)
      as [E | [s [c [t [Hs [Hc [Ht E]]]]]]]; rewrite E; [exact H|].
    apply moveTask_keeps_ids_unique; [exact H|].
    eapply nth_error_holds; eauto.
Qed.

(** X12: the ids of the Board stay unique along any sequence of actions,
    the twelve handlers of [Action], in which every creation makes, from its
    clock readings, ids that are not in use on the Board it is applied to.
    [importData] is no [Action]: it stores the array of the file, whatever
    its ids. *)
Theorem run_keeps_ids_unique
    (actions : list Action) (b : Board)
    (Hunique : unique_ids b) (Hfresh : all_fresh_actions actions b) :
  unique_ids (run actions b).
Proof.
  revert b Hunique Hfresh. unfold run.
  induction actions as [|a actions IH]; intros b Hunique Hfresh; simpl.
  - exact Hunique.
  - destruct Hfresh as [Ha Hrest].
    apply IH; [|exact Hrest].
    apply unique_ids_act; assumption.
Qed.

Lemma run_keeps_ids_unique_witness :
  unique_ids
    (run [ DoAddTask 1762000000000 "1" "c1" "Plan";
           DoDragAndDrop 0 0 2 "2" "c4";
           DoDeleteTask "1" "c1" "t3";
           DoRemoveColumn "1";
           DoAddColumn 1762000000001 "1" ]
       initialSections).
Proof.
  apply (run_keeps_ids_unique
           [ DoAddTask 1762000000000 "1" "c1" "Plan";
             DoDragAndDrop 0 0 2 "2" "c4";
             DoDeleteTask "1" "c1" "t3";
             DoRemoveColumn "1";
             DoAddColumn 1762000000001 "1" ]
           initialSections).
  - repeat split; apply distinct_NoDup; reflexivity.
  - simpl. repeat split; vm_compute; intuition discriminate.
Defined.

(** * The view and the handlers *)

Lemma NoDup_map_In_eq {A} (f : A -> string) (l : list A) (x y : A) :
  NoDup (map f l) -> In x l -> In y l -> f x = f y -> x = y.
Proof.
  induction l as [|z l IH]; simpl; intros H Hx Hy E; [contradiction|].
  inversion H as [|? ? Hz Hl]; subst.
  destruct Hx as [-> | Hx], Hy as [-> | Hy].
  - reflexivity.
  - exfalso. apply Hz. rewrite E. apply in_map. exact Hy.
  - exfalso. apply Hz. rewrite <- E. apply in_map. exact Hx.
  - auto.
Qed.

(** X13: the Remove Column button of a Section is disabled exactly when
    [removeColumn] with the id of the Section would change nothing, on a
    Board whose section ids are unique. *)
Theorem removeColumn_noop_iff_disabled
    (b : Board) (s : Section)
    (Hunique : NoDup (section_ids b)) (Hin : In s b) :
  removeColumn (section_id s) b = b <-> removeColumnDisabled s = true.
Proof.
  unfold removeColumnDisabled. split.
  - intro H.
    destruct (In_nth_error _ _ Hin) as [i Hi].
    assert (Hi' := Hi). rewrite <- H in Hi'. unfold removeColumn in Hi'.
    rewrite (nth_error_map_some _ _ _ _ Hi) in Hi'.
    rewrite String.eqb_refl in Hi'. simpl in Hi'.
    destruct (Nat.ltb 1 (List.length (columns s))) eqn:E.
    + exfalso. apply Nat.ltb_lt in E.
      injection Hi' as Hi'.
      apply (f_equal (fun x => List.length (columns x))) in Hi'.
      simpl in Hi'. unfold slice_0_neg1 in Hi'.
      rewrite length_firstn in Hi'. lia.
    + apply Nat.ltb_ge in E. apply Nat.leb_le. exact E.
  - intro H. apply Nat.leb_le in H.
    unfold removeColumn. apply map_id_ext. intros s' Hs'.
    destruct (section_id s' =? section_id s) eqn:E; [|reflexivity].
    apply String.eqb_eq in E.
    rewrite (NoDup_map_In_eq section_id b s' s Hunique Hs' Hin E).
    replace (Nat.ltb 1 (List.length (columns s))) with false
      by (symmetry; apply Nat.ltb_ge; exact H).
    reflexivity.
Qed.

Lemma removeColumn_noop_iff_disabled_witness :
  removeColumn "2"
    [ mkSection "2" "Development" [ mkColumn "c4" "Backlog" [] ] ]
  = [ mkSection "2" "Development" [ mkColumn "c4" "Backlog" [] ] ].
Proof.
  apply (removeColumn_noop_iff_disabled
           [ mkSection "2" "Development" [ mkColumn "c4" "Backlog" [] ] ]
           (mkSection "2" "Development" [ mkColumn "c4" "Backlog" [] ])).
  - apply distinct_NoDup. reflexivity.
  - left. reflexivity.
  - reflexivity.
Defined.



Lemma before_first_T_app (date time : string) :
  has_char "T" date = false ->
  before_first_T (date ++ String "T" time) = date.
Proof.
  induction date as [|c d IH]; simpl; intro H.
  - reflexivity.
  - apply orb_false_iff in H. destruct H as [Hc Hd].
    rewrite Hc, IH by exact Hd. reflexivity.
Qed.

(** X15: the name of the exported file holds the part of the ISO date
    string before its [T]: for a date part with no [T] in it the name is
    [focustask-export-<date>.json]. *)
Theorem exportFileName_date (date time : string)
    (Hdate : has_char "T" date = false) :
  exportFileName (date ++ String "T" time)
  = ("focustask-export-" ++ date ++ ".json")%string.
Proof.
  unfold exportFileName. rewrite before_first_T_app by exact Hdate.
  reflexivity.
Qed.

Lemma exportFileName_date_witness :
  exportFileName "2026-11-03T06:58:00.000Z"
  = "focustask-export-2026-11-03.json".
Proof.
  apply (exportFileName_date "2026-11-03" "06:58:00.000Z"). reflexivity.
Defined.

(** ** What the handlers of Tasks leave alone *)

Lemma skeleton_in_column
    (sectionId columnId : string) (f : Column -> Column) (b : Board) :
  (forall c, column_id (f c) = column_id c) ->
  (forall c, column_title (f c) = column_title c) ->
  skeleton (in_column sectionId columnId f b) = skeleton b.
Proof.
  intros Hid Htitle. unfold skeleton, in_column.
  rewrite map_map. apply map_ext. intro s.
  destruct (section_id s =? sectionId); [|reflexivity].
  simpl. f_equal. rewrite map_map. apply map_ext. intro c.
  destruct (column_id c =? columnId); [|reflexivity].
  rewrite Hid, Htitle. reflexivity.
Qed.

(** X16: the handlers of Tasks never touch a Section or a Column: after
    [addTask], [deleteTask], [toggleTaskCompletion], [editTaskTitle] and a
    drop, the Board has the same Sections and Columns, with their ids and
    titles, in the same order. *)
Theorem task_handlers_keep_skeleton
    (b : Board) (now : Z) (sectionId columnId taskId title : string)
    (task : Task) (toSectionId toColumnId : string) :
  skeleton (addTask now sectionId columnId title b) = skeleton b
  /\ skeleton (deleteTask sectionId columnId taskId b) = skeleton b
  /\ skeleton (toggleTaskCompletion sectionId columnId taskId b) = skeleton b
  /\ skeleton (editTaskTitle sectionId columnId taskId title b) = skeleton b
  /\ skeleton (moveTask task sectionId columnId toSectionId toColumnId b)
     = skeleton b.
Proof.
  unfold addTask, deleteTask, toggleTaskCompletion, editTaskTitle.
  rewrite moveTask_two_steps.
  destruct (truthy (trim title));
    repeat split; rewrite ?skeleton_in_column; reflexivity.
Qed.

(** * The storage slot *)

Module JSONCompactProofs.
Import JSON JSONFacts JSONProofs.

Lemma compact_head (v : value) :
  wf v ->
  exists c s',
    JSONCompact.serialize v = String c s'
    /\ is_ws c = false
    /\ Ascii.eqb c "]" = false
    /\ Ascii.eqb c "}" = false.
Proof.
  destruct v as [ | [] | literal | s | [|x l] | [|m ms] ]; simpl; intro H;
    try contradiction; eexists; eexists; (split; [reflexivity|]);
    repeat split; reflexivity.
Qed.

Lemma compact_elements (l : list value) :
  Forall JSONCompact.reads_back l ->
  fold_right (fun x P => wf x /\ P) True l ->
  l <> [] ->
  forall fuel w tail rest,
    elements_weight l <= fuel -> blank w = true ->
    skip_ws tail = String "]" rest ->
    parse_elements fuel
      (w ++ join "," (map JSONCompact.serialize l) ++ tail)
    = Some (l, rest).
Proof.
  intros Hall Hwf Hne.
  induction l as [|x l IH]; [congruence|]. clear Hne.
  intros fuel w tail rest Hfuel Hw Htail.
  inversion Hall as [|? ? Hx Hl]; subst.
  destruct Hwf as [Wx Wl].
  unfold elements_weight in Hfuel. simpl in Hfuel.
  fold (elements_weight l) in Hfuel.
  destruct fuel as [|fuel]; [lia|].
  destruct l as [|y l].
  - change (join "," (map JSONCompact.serialize [x]))
      with (JSONCompact.serialize x).
    cbn [parse_elements].
    rewrite (Hx Wx fuel w tail) by (assumption || lia).
    rewrite Htail. reflexivity.
  - change (join "," (map JSONCompact.serialize (x :: y :: l)))
      with (JSONCompact.serialize x ++ ","
              ++ join "," (map JSONCompact.serialize (y :: l)))%string.
    cbn [parse_elements].
    rewrite !append_assoc.
    rewrite (Hx Wx fuel w) by (assumption || lia).
    change (skip_ws ("," ++ ?s)%string) with (String "," s).
    cbv iota.
    change (Ascii.eqb "," ",") with true. cbv iota.
    pose proof (IH Hl Wl ltac:(discriminate) fuel EmptyString tail rest)
      as IH'.
    change (EmptyString ++ ?X)%string with X in IH'.
    rewrite IH'; [reflexivity | lia | reflexivity | exact Htail].
Qed.

Lemma compact_members_step
    (fuel : nat) (w k tail : string) (x : value)
    (acc : list (string * value)) :
  JSONCompact.reads_back x -> wf x -> weight x <= fuel ->
  blank w = true ->
  parse_members (S fuel)
    (w ++ QuoteJSONString k ++ ":" ++ JSONCompact.serialize x ++ tail) acc
  = match skip_ws tail with
    | EmptyString => None
    | String c rest =>
        if Ascii.eqb c ","
        then parse_members fuel rest (set_member k x acc)
        else if Ascii.eqb c "}" then Some (set_member k x acc, rest)
             else None
    end.
Proof.
  intros Hx Wx Hfuel Hw.
  cbn [parse_members].
  rewrite skip_ws_blank by exact Hw.
  rewrite QuoteJSONString_app.
  change (skip_ws (String dquote ?s)) with (String dquote s). cbv iota.
  rewrite Ascii.eqb_refl, parse_chars_quote_chars.
  change (skip_ws (":" ++ ?s)%string) with (String ":" s).
  cbv iota. rewrite Ascii.eqb_refl.
  pose proof (Hx Wx fuel EmptyString tail Hfuel eq_refl) as Hx'.
  change (EmptyString ++ ?X)%string with X in Hx'.
  rewrite Hx'. reflexivity.
Qed.

Lemma compact_members (ms : list (string * value)) :
  Forall (fun m => JSONCompact.reads_back (snd m)) ms ->
  fold_right (fun m P => wf (snd m) /\ P) True ms ->
  ms <> [] ->
  forall fuel w tail rest acc,
    members_weight ms <= fuel -> blank w = true ->
    NoDup (map fst (acc ++ ms)) ->
    skip_ws tail = String "}" rest ->
    parse_members fuel
      (w ++ join ","
              (map (fun m => QuoteJSONString (fst m) ++ ":"
                               ++ JSONCompact.serialize (snd m))%string ms)
         ++ tail) acc
    = Some (acc ++ ms, rest).
Proof.
  intros Hall Hwf Hne.
  induction ms as [|[k x] ms IH]; [congruence|]. clear Hne.
  intros fuel w tail rest acc Hfuel Hw Hnodup Htail.
  inversion Hall as [|? ? Hx Hl]; subst. simpl in Hx.
  destruct Hwf as [Wx Wl]. simpl in Wx.
  unfold members_weight in Hfuel. simpl in Hfuel.
  fold (members_weight ms) in Hfuel.
  destruct fuel as [|fuel]; [lia|].
  assert (Hk : ~ In k (map fst acc)).
  { rewrite map_app in Hnodup. simpl in Hnodup.
    apply NoDup_remove_2 in Hnodup. intro Hin. apply Hnodup.
    apply in_or_app. left. exact Hin. }
  destruct ms as [|m' ms].
  - cbn [map join fst snd].
    rewrite !append_assoc.
    rewrite compact_members_step by (assumption || lia).
    rewrite Htail. cbv iota.
    change (Ascii.eqb "}" ",") with false.
    change (Ascii.eqb "}" "}") with true. cbv iota.
    rewrite set_member_fresh by exact Hk. reflexivity.
  - change (join ?sep (map ?f ((k, x) :: m' :: ms)))
      with (f (k, x) ++ sep ++ join sep (map f (m' :: ms)))%string.
    cbn [fst snd].
    rewrite !append_assoc.
    rewrite compact_members_step by (assumption || lia).
    change (skip_ws ("," ++ ?s)%string) with (String "," s).
    cbv iota.
    change (Ascii.eqb "," ",") with true. cbv iota.
    rewrite set_member_fresh by exact Hk.
    pose proof (IH Hl Wl ltac:(discriminate) fuel EmptyString
                  tail rest (acc ++ [(k, x)])) as IH'.
    change (EmptyString ++ ?X)%string with X in IH'.
    rewrite IH'.
    + rewrite <- app_assoc. reflexivity.
    + lia.
    + reflexivity.
    + rewrite <- app_assoc. exact Hnodup.
    + exact Htail.
Qed.

Lemma compact_first_element
    (tail : string) (x : value) (l : list value) :
  wf x ->
  exists c s,
    skip_ws (join "," (map JSONCompact.serialize (x :: l)) ++ tail)
    = String c s
    /\ Ascii.eqb c "]" = false.
Proof.
  intro Wx.
  destruct (join_cons_head "," (JSONCompact.serialize x)
              (map JSONCompact.serialize l)) as [t Ht].
  change (map JSONCompact.serialize (x :: l))
    with (JSONCompact.serialize x :: map JSONCompact.serialize l).
  rewrite Ht.
  destruct (compact_head x Wx) as [c [s [E [Hc [H1 _]]]]].
  rewrite E. simpl. rewrite Hc. eauto.
Qed.

(** The compact text of a well-formed value is read back as the value. *)
Lemma compact_reads_back (v : value) : JSONCompact.reads_back v.
Proof.
  induction v as [ | b | literal | s | l IHl | ms IHms ] using value_ind;
    intros W fuel w rest Hfuel Hw;
    (destruct fuel as [|fuel]; [simpl in Hfuel; lia|]).
  - cbn [parse_value]. rewrite skip_ws_blank by exact Hw. reflexivity.
  - cbn [parse_value]. rewrite skip_ws_blank by exact Hw.
    destruct b; reflexivity.
  - contradiction.
  - cbn [parse_value JSONCompact.serialize].
    rewrite skip_ws_blank by exact Hw.
    rewrite QuoteJSONString_app.
    change (skip_ws (String dquote ?t)) with (String dquote t). cbv iota.
    change (Ascii.eqb dquote "n") with false.
    change (Ascii.eqb dquote "t") with false.
    change (Ascii.eqb dquote "f") with false.
    rewrite Ascii.eqb_refl. cbv iota.
    rewrite parse_chars_quote_chars. reflexivity.
  - destruct l as [|x l].
    + cbn [parse_value]. rewrite skip_ws_blank by exact Hw. reflexivity.
    + cbn [parse_value]. rewrite skip_ws_blank by exact Hw.
      change (JSONCompact.serialize (Array (x :: l)))
        with ("[" ++ join "," (map JSONCompact.serialize (x :: l))
                ++ "]")%string.
      rewrite !append_assoc.
      change (skip_ws ("[" ++ ?t)%string) with (String "[" t). cbv iota.
      change (Ascii.eqb "[" "n") with false.
      change (Ascii.eqb "[" "t") with false.
      change (Ascii.eqb "[" "f") with false.
      change (Ascii.eqb "[" dquote) with false.
      change (Ascii.eqb "[" "[") with true. cbv iota.
      destruct W as [Wx Wl].
      destruct (compact_first_element ("]" ++ rest) x l Wx)
        as [c [t [E Hc]]].
      rewrite E, Hc.
      pose proof (compact_elements (x :: l) IHl (conj Wx Wl)
                    ltac:(discriminate) fuel EmptyString
                    ("]" ++ rest)%string rest) as Hl.
      change (EmptyString ++ ?X)%string with X in Hl.
      rewrite Hl.
      * reflexivity.
      * simpl in Hfuel. unfold elements_weight. simpl. lia.
      * reflexivity.
      * reflexivity.
  - destruct ms as [|m ms].
    + cbn [parse_value]. rewrite skip_ws_blank by exact Hw. reflexivity.
    + cbn [parse_value]. rewrite skip_ws_blank by exact Hw.
      change (JSONCompact.serialize (Object (m :: ms)))
        with ("{" ++ join ","
                       (map (fun m => QuoteJSONString (fst m) ++ ":"
                                        ++ JSONCompact.serialize (snd m))
                          (m :: ms))
                ++ "}")%string.
      rewrite !append_assoc.
      change (skip_ws ("{" ++ ?t)%string) with (String "{" t). cbv iota.
      change (Ascii.eqb "{" "n") with false.
      change (Ascii.eqb "{" "t") with false.
      change (Ascii.eqb "{" "f") with false.
      change (Ascii.eqb "{" dquote) with false.
      change (Ascii.eqb "{" "[") with false.
      change (Ascii.eqb "{" "{") with true. cbv iota.
      destruct W as [Wk Wms].
      destruct (skip_ws_first_member EmptyString "," ("}" ++ rest)
                  (fun m => QuoteJSONString (fst m) ++ ":"
                              ++ JSONCompact.serialize (snd m))%string
                  m ms eq_refl) as [t E].
      { intro m'. eexists. reflexivity. }
      change (EmptyString ++ ?X)%string with X in E. rewrite E.
      change (Ascii.eqb dquote "}") with false. cbv iota.
      pose proof (compact_members (m :: ms) IHms Wms
                    ltac:(discriminate) fuel EmptyString
                    ("}" ++ rest)%string rest []) as Hm.
      change (EmptyString ++ ?X)%string with X in Hm.
      rewrite Hm.
      * reflexivity.
      * simpl in Hfuel. unfold members_weight. simpl. lia.
      * reflexivity.
      * exact Wk.
      * reflexivity.
Qed.

Lemma compact_weight_le_length (v : value) :
  wf v -> weight v <= String.length (JSONCompact.serialize v).
Proof.
  induction v as [ | b | literal | s | l IHl | ms IHms ] using value_ind;
    intros W.
  - simpl. lia.
  - destruct b; simpl; lia.
  - contradiction.
  - simpl. lia.
  - destruct l as [|x l]; [simpl; lia|].
    change (JSONCompact.serialize (Array (x :: l)))
      with ("[" ++ join "," (map JSONCompact.serialize (x :: l))
              ++ "]")%string.
    change (weight (Array (x :: l))) with (S (elements_weight (x :: l))).
    pose proof (join_length_elements "," JSONCompact.serialize (x :: l)) as H.
    rewrite !length_append.
    change (String.length "[") with 1.
    change (String.length "]") with 1.
    assert (elements_weight (x :: l)
            <= String.length
                 (join "," (map JSONCompact.serialize (x :: l))) + 1).
    { apply H; [|simpl; lia].
      clear H. revert W IHl. generalize (x :: l). intros l0 W IHl0.
      induction IHl0 as [|y l0 Hy Hl0 IH]; constructor.
      - apply Hy. apply W.
      - apply IH. apply W. }
    lia.
  - destruct ms as [|m ms]; [simpl; lia|].
    change (JSONCompact.serialize (Object (m :: ms)))
      with ("{" ++ join ","
                     (map (fun m => QuoteJSONString (fst m) ++ ":"
                                      ++ JSONCompact.serialize (snd m))
                        (m :: ms))
              ++ "}")%string.
    change (weight (Object (m :: ms))) with (S (members_weight (m :: ms))).
    pose proof (join_length_members ","
                  (fun m => QuoteJSONString (fst m) ++ ":"
                              ++ JSONCompact.serialize (snd m))%string
                  (m :: ms)) as H.
    rewrite !length_append.
    change (String.length "{") with 1.
    change (String.length "}") with 1.
    assert (members_weight (m :: ms)
            <= String.length
                 (join ","
                    (map (fun m => QuoteJSONString (fst m) ++ ":"
                                     ++ JSONCompact.serialize (snd m))%string
                       (m :: ms))) + 1).
    { apply H; [|simpl; lia].
      clear H. destruct W as [_ W]. revert W IHms.
      generalize (m :: ms). intros l0 W IHl0.
      induction IHl0 as [|y l0 Hy Hl0 IH]; constructor.
      - rewrite !length_append.
        pose proof (Hy (proj1 W)). lia.
      - apply IH. apply W. }
    lia.
Qed.

(** [JSON.parse] of the compact [JSON.stringify] of a well-formed value is
    the value. *)
Lemma parse_compact (v : value) :
  wf v -> parse (JSONCompact.stringify v) = Some v.
Proof.
  intro W. unfold parse, JSONCompact.stringify.
  pose proof (compact_reads_back v W
                (S (String.length (JSONCompact.serialize v)))
                EmptyString EmptyString) as H.
  cbn [append] in H. rewrite append_nil_r in H.
  rewrite H; [reflexivity| |reflexivity].
  pose proof (compact_weight_le_length v W). lia.
Qed.

Lemma compact_truthy (v : value) :
  wf v -> truthy (JSONCompact.stringify v) = true.
Proof.
  intro W. unfold JSONCompact.stringify.
  destruct (compact_head v W) as [c [s [E _]]]. rewrite E. reflexivity.
Qed.

End JSONCompactProofs.

(** X17: what [setValue] writes for a Board, the initial state reads back:
    after a reload the state is the value of the Board that was saved,
    whatever the slot held and whatever the initial value is.  A later write
    that throws leaves that text in the slot, so a reload then gives the
    Board saved before it, not the value whose write failed. *)
Theorem slot_round_trip
    (b : Board) (initialValue : JSON.value) (slot : option string) :
  initialStoredValue (getItem (snd (setValue (board_json b) false slot)))
    initialValue
  = board_json b
  /\ (forall later : JSON.value,
         fst (setValue later true
                (snd (setValue (board_json b) false slot)))
         = later
         /\ initialStoredValue
              (getItem
                 (snd (setValue later true
                         (snd (setValue (board_json b) false slot)))))
              initialValue
            = board_json b).
Proof.
  assert (H : initialStoredValue
                (GetItemText (JSONCompact.stringify (board_json b)))
                initialValue
              = board_json b).
  { unfold initialStoredValue, initialStoredValueWith.
    rewrite (JSONCompactProofs.compact_truthy _ (wf_board_json b)).
    rewrite (JSONCompactProofs.parse_compact _ (wf_board_json b)).
    reflexivity. }
  split; [exact H|]. intro later. split; [reflexivity | exact H].
Qed.

(** X18: export and import, and the slot, give back any stored array with
    no number in it and no key twice in an object, whatever its elements:
    entities with fields missing or added come back as they were. *)
Theorem any_array_round_trip
    (elements : list JSON.value) (current initialValue : JSON.value)
    (slot : option string)
    (Hwf : JSONFacts.wf (JSON.Array elements)) :
  importData (Some (exportData (JSON.Array elements))) current
  = (JSON.Array elements, None)
  /\ initialStoredValue
       (getItem (snd (setValue (JSON.Array elements) false slot)))
       initialValue
     = JSON.Array elements.
Proof.
  split.
  - unfold importData, importDataWith, exportData.
    rewrite (JSONProofs.parse_stringify _ Hwf). reflexivity.
  - unfold initialStoredValue, initialStoredValueWith, setValue, getItem,
      snd.
    rewrite (JSONCompactProofs.compact_truthy _ Hwf).
    rewrite (JSONCompactProofs.parse_compact _ Hwf).
    reflexivity.
Qed.

Lemma any_array_round_trip_witness :
  importData
    (Some (exportData
             (JSON.Array
                [ JSON.Object
                    [ ("title", JSON.Str "No id");
                      ("color", JSON.Null);
                      ("columns", JSON.Array [ JSON.Bool true ]) ] ])))
    JSON.Null
  = (JSON.Array
       [ JSON.Object
           [ ("title", JSON.Str "No id");
             ("color", JSON.Null);
             ("columns", JSON.Array [ JSON.Bool true ]) ] ],
     None).
Proof.
  apply (any_array_round_trip
           [ JSON.Object
               [ ("title", JSON.Str "No id");
                 ("color", JSON.Null);
                 ("columns", JSON.Array [ JSON.Bool true ]) ] ]
           JSON.Null JSON.Null None).
  simpl. repeat split. apply distinct_NoDup. reflexivity.
Defined.

Lemma parse_empty_text : JSON.parse EmptyString = None.
Proof. reflexivity. Qed.

(** X19: whatever [JSON.parse] and [Array.isArray] are, as long as
    [JSON.parse] throws on the empty text, a text that [importData] accepts
    is a text the slot can hold: the initial state read from it is the array
    the import stored. *)
Theorem imported_text_loads
    {V : Type} (JSON_parse : string -> option V) (isArray : V -> bool)
    (text : string) (current initialValue imported : V)
    (Hempty : JSON_parse EmptyString = None)
    (Himport : importDataWith JSON_parse isArray (Some text) current
               = (imported, None)) :
  initialStoredValueWith JSON_parse (GetItemText text) initialValue
  = imported.
Proof.
  unfold importDataWith in Himport. unfold initialStoredValueWith.
  destruct text as [|c text'].
  - rewrite Hempty in Himport. discriminate.
  - destruct (JSON_parse (String c text')) as [v|]; [|discriminate].
    destruct (isArray v); [|discriminate].
    injection Himport as <-. reflexivity.
Qed.

Lemma imported_text_loads_witness :
  initialStoredValue (GetItemText " [ true ] ") JSON.Null
  = JSON.Array [ JSON.Bool true ].
Proof.
  apply (imported_text_loads JSON.parse JSON.isArray " [ true ] "
           JSON.Null JSON.Null);
    reflexivity.
Defined.

(** The slot is read with no check of its shape: a text that [importData]
    refuses is read as it parses. *)
Lemma slot_read_has_no_array_check :
  initialStoredValue (GetItemText "{}") (board_json initialSections)
  = JSON.Object []
  /\ importData (Some "{}") (board_json initialSections)
     = (board_json initialSections, Some invalid_format_message).
Proof. split; reflexivity. Qed.

(** * Renames *)

Lemma section_map_compose
    (sectionId : string) (f g : Section -> Section) (b : Board) :
  (forall s, section_id (g s) = section_id s) ->
  map (fun s => if section_id s =? sectionId then f s else s)
    (map (fun s => if section_id s =? sectionId then g s else s) b)
  = map (fun s => if section_id s =? sectionId then f (g s) else s) b.
Proof.
  intro Hg. rewrite map_map. apply map_ext. intro s.
  destruct (section_id s =? sectionId) eqn:E.
  - rewrite Hg, E. reflexivity.
  - rewrite E. reflexivity.
Qed.

(** X20: of two renames of the same target in a row, the later one stands
    when its title passes the guard, for Sections, Columns and Tasks: the
    result is what the later rename alone gives. *)
Theorem later_rename_stands
    (b : Board) (sectionId columnId taskId title1 title2 : string)
    (Htitle : trim title2 <> EmptyString) :
  editSectionTitle sectionId title2 (editSectionTitle sectionId title1 b)
  = editSectionTitle sectionId title2 b
  /\ editColumnTitle sectionId columnId title2
       (editColumnTitle sectionId columnId title1 b)
     = editColumnTitle sectionId columnId title2 b
  /\ editTaskTitle sectionId columnId taskId title2
       (editTaskTitle sectionId columnId taskId title1 b)
     = editTaskTitle sectionId columnId taskId title2 b.
Proof.
  apply truthy_trim in Htitle.
  unfold editSectionTitle, editColumnTitle, editTaskTitle.
  rewrite Htitle.
  destruct (truthy (trim title1)); repeat split; try reflexivity.
  - rewrite section_map_compose by reflexivity. reflexivity.
  - rewrite in_column_in_column by reflexivity. reflexivity.
  - rewrite in_column_in_column by reflexivity.
    unfold in_column. apply map_ext. intro s.
    destruct (section_id s =? sectionId); [|reflexivity].
    f_equal. apply map_ext. intro c.
    destruct (column_id c =? columnId); [|reflexivity].
    unfold with_tasks. simpl. f_equal.
    rewrite map_map. apply map_ext. intro t.
    destruct (task_id t =? taskId) eqn:E; simpl; rewrite E; reflexivity.
Qed.

Lemma later_rename_stands_witness :
  editSectionTitle "1" "Beta" (editSectionTitle "1" "Alpha" initialSections)
  = editSectionTitle "1" "Beta" initialSections
  /\ editColumnTitle "1" "c1" "Beta"
       (editColumnTitle "1" "c1" "Alpha" initialSections)
     = editColumnTitle "1" "c1" "Beta" initialSections
  /\ editTaskTitle "1" "c1" "t1" "Beta"
       (editTaskTitle "1" "c1" "t1" "Alpha" initialSections)
     = editTaskTitle "1" "c1" "t1" "Beta" initialSections.
Proof.
  apply (later_rename_stands initialSections "1" "c1" "t1" "Alpha" "Beta").
  vm_compute. discriminate.
Defined.

Lemma all_tasks_in_column_same
    (sectionId columnId : string) (f : Column -> Column) (b : Board) :
  (forall c, tasks (f c) = tasks c) ->
  all_tasks (in_column sectionId columnId f b) = all_tasks b.
Proof.
  intro Hf. induction b as [|s b IH]; [reflexivity|].
  change (in_column sectionId columnId f (s :: b))
    with ((if section_id s =? sectionId
           then with_columns s
                  (map (fun col =>
                          if column_id col =? columnId then f col else col)
                     (columns s))
           else s) :: in_column sectionId columnId f b).
  rewrite !all_tasks_cons, IH. f_equal.
  destruct (section_id s =? sectionId); [|reflexivity].
  simpl. induction (columns s) as [|c cs IHc]; [reflexivity|].
  simpl. rewrite IHc. f_equal.
  destruct (column_id c =? columnId); [apply Hf | reflexivity].
Qed.

Lemma section_ids_in_column
    (sectionId columnId : string) (f : Column -> Column) (b : Board) :
  section_ids (in_column sectionId columnId f b) = section_ids b.
Proof.
  unfold in_column. apply section_ids_map.
  intro s. destruct (section_id s =? sectionId); reflexivity.
Qed.

Lemma all_columns_section_map (g : Section -> Section) (b : Board) :
  (forall s, columns (g s) = columns s) ->
  all_columns (map g b) = all_columns b.
Proof.
  intro Hg. unfold all_columns. induction b as [|s b IH]; [reflexivity|].
  simpl. rewrite IH, Hg. reflexivity.
Qed.

Lemma map_all_tasks_in_column {A}
    (sectionId columnId : string) (m : Task -> Task) (g : Task -> A)
    (b : Board) :
  (forall t, g (m t) = g t) ->
  map g
    (all_tasks
       (in_column sectionId columnId
          (fun col => with_tasks col (map m (tasks col))) b))
  = map g (all_tasks b).
Proof.
  intro Hg. induction b as [|s b IH]; [reflexivity|].
  change (in_column sectionId columnId ?f (s :: b))
    with ((if section_id s =? sectionId
           then with_columns s
                  (map (fun col =>
                          if column_id col =? columnId then f col else col)
                     (columns s))
           else s) :: in_column sectionId columnId f b).
  rewrite !all_tasks_cons, !map_app, IH. f_equal.
  destruct (section_id s =? sectionId); [|reflexivity].
  simpl. induction (columns s) as [|c cs IHc]; [reflexivity|].
  simpl. rewrite !map_app, IHc. f_equal.
  destruct (column_id c =? columnId); [|reflexivity].
  simpl. rewrite map_map. apply map_ext. exact Hg.
Qed.

(** X21: a rename changes titles and nothing else: after a rename of a
    Section or of a Column the Board has the same ids and the same Tasks in
    the same order, and after a rename of a Task the same ids and the same
    [completed] flags. *)
Theorem renames_keep_everything_else
    (b : Board) (sectionId columnId taskId title : string) :
  (section_ids (editSectionTitle sectionId title b) = section_ids b
   /\ all_columns (editSectionTitle sectionId title b) = all_columns b)
  /\ (section_ids (editColumnTitle sectionId columnId title b)
      = section_ids b
      /\ column_ids (editColumnTitle sectionId columnId title b)
         = column_ids b
      /\ all_tasks (editColumnTitle sectionId columnId title b)
         = all_tasks b)
  /\ (section_ids (editTaskTitle sectionId columnId taskId title b)
      = section_ids b
      /\ column_ids (editTaskTitle sectionId columnId taskId title b)
         = column_ids b
      /\ task_ids (editTaskTitle sectionId columnId taskId title b)
         = task_ids b
      /\ map completed
           (all_tasks (editTaskTitle sectionId columnId taskId title b))
         = map completed (all_tasks b)).
Proof.
  unfold editSectionTitle, editColumnTitle, editTaskTitle.
  destruct (truthy (trim title)); [|repeat split; reflexivity].
  split; [|split].
  - split.
    + apply section_ids_map.
      intro s. destruct (section_id s =? sectionId); reflexivity.
    + apply all_columns_section_map.
      intro s. destruct (section_id s =? sectionId); reflexivity.
  - split; [apply section_ids_in_column|]. split.
    + apply column_ids_in_column. reflexivity.
    + apply all_tasks_in_column_same. reflexivity.
  - split; [apply section_ids_in_column|].
    split; [apply column_ids_in_column; reflexivity|].
    split.
    + apply (map_all_tasks_in_column sectionId columnId
               (fun task => if task_id task =? taskId
                            then with_task_title task title else task)
               task_id).
      intro t. destruct (task_id t =? taskId); reflexivity.
    + apply (map_all_tasks_in_column sectionId columnId
               (fun task => if task_id task =? taskId
                            then with_task_title task title else task)
               completed).
      intro t. destruct (task_id t =? taskId); reflexivity.
Qed.

(** * One Section at a time *)

Lemma nth_error_section_map_other
    (sectionId : string) (f : Section -> Section) (b : Board)
    (i : nat) (s : Section) :
  nth_error b i = Some s -> section_id s <> sectionId ->
  nth_error
    (map (fun x => if section_id x =? sectionId then f x else x) b) i
  = Some s.
Proof.
  intros Hs Hne. rewrite (nth_error_map_some _ _ _ _ Hs).
  apply String.eqb_neq in Hne. rewrite Hne. reflexivity.
Qed.

(** X22: a handler given a section id leaves every Section with another id
    as it is and where it is; a drop leaves as it is every Section that has
    neither its source id nor its destination id. *)
Theorem handlers_are_local
    (b : Board) (i : nat) (s : Section) (sectionId : string)
    (Hs : nth_error b i = Some s) (Hother : section_id s <> sectionId) :
  nth_error (clearCompletedTasks sectionId b) i = Some s
  /\ (forall title, nth_error (editSectionTitle sectionId title b) i = Some s)
  /\ (forall now, nth_error (addColumn now sectionId b) i = Some s)
  /\ nth_error (removeColumn sectionId b) i = Some s
  /\ (forall columnId title,
         nth_error (editColumnTitle sectionId columnId title b) i = Some s)
  /\ (forall now columnId title,
         nth_error (addTask now sectionId columnId title b) i = Some s)
  /\ (forall columnId taskId,
         nth_error (deleteTask sectionId columnId taskId b) i = Some s)
  /\ (forall columnId taskId,
         nth_error (toggleTaskCompletion sectionId columnId taskId b) i
         = Some s)
  /\ (forall columnId taskId title,
         nth_error (editTaskTitle sectionId columnId taskId title b) i
         = Some s)
  /\ (forall task fromColumnId toSectionId toColumnId,
         section_id s <> toSectionId ->
         nth_error
           (moveTask task sectionId fromColumnId toSectionId toColumnId b) i
         = Some s).
Proof.
  assert (Hin : forall sid cid f b',
             nth_error b' i = Some s -> section_id s <> sid ->
             nth_error (in_column sid cid f b') i = Some s).
  { intros sid cid f b' H Hne. unfold in_column.
    apply nth_error_section_map_other; assumption. }
  unfold clearCompletedTasks, editSectionTitle, addColumn, editColumnTitle,
    addTask, deleteTask, toggleTaskCompletion, editTaskTitle.
  repeat split; intros;
    try (destruct (truthy (trim title)); [|exact Hs]);
    try (apply nth_error_section_map_other; assumption);
    try (apply Hin; assumption).
  - unfold removeColumn. rewrite (nth_error_map_some _ _ _ _ Hs).
    apply String.eqb_neq in Hother. rewrite Hother. reflexivity.
  - rewrite moveTask_two_steps. apply Hin; [|assumption].
    apply Hin; assumption.
Qed.

Lemma handlers_are_local_witness :
  nth_error (removeColumn "2" initialSections) 0
  = nth_error initialSections 0.
Proof.
  assert (H : section_id (mkSection "1" "Project Planning"
                 [ mkColumn "c1" "To Do"
                     [ mkTask "t1" "Sample task 1" false;
                       mkTask "t3" "Completed sample task" true ];
                   mkColumn "c2" "In Progress"
                     [ mkTask "t2" "Sample task 2" false ];
                   mkColumn "c3" "Done" [] ]) <> "2")
    by (simpl; discriminate).
  destruct (handlers_are_local initialSections 0 _ "2" eq_refl H)
    as [_ [_ [_ [Hr _]]]].
  exact Hr.
Defined.
